(** * TrailForge: the job pipeline of the map builder, embedded in Rocq

    A shallow embedding of the Python backend (bounding-box validation,
    Overpass tiling and download, the Celery task that drives the external
    tools, and the byte-range download route) together with the properties
    its specification states about it.

    Conventions of the embedding.
    - Python [float] values are modelled by the rational numbers they
      denote ([Q], compared with [==]); arithmetic is exact, so rounding
      error of binary64 is outside the model.
    - Python [int] is [Z]; [str] is [string]; [bytes] is [list byte].
    - A function that can raise returns a [result]; code that touches the
      file system, the network, the clock or the task state runs in the
      state-and-exception monad [M] over a [World].
    - What is not code of the repository (the Overpass server, the
      external command-line tools, [glob], [repr] of a float) is a field
      of the environment record [Env]. *)

From Stdlib Require Import ZArith QArith Qround Qminmax Qabs Lqa Lia.
From Stdlib Require Import List String Ascii Strings.Byte DecimalString Decimal.
From Stdlib Require Import DecimalPos DecimalZ.
From stdpp Require Import gmap strings list.
Import ListNotations.

Local Open Scope string_scope.
Local Open Scope Z_scope.

(* ================================================================== *)
(** * Python runtime *)
(* ================================================================== *)

(** Exceptions that the modelled code raises or lets through. *)
Inductive exn : Type :=
  | ValueError (msg : string)
  | ZeroDivisionError (msg : string)
  | RuntimeError (msg : string)
  | FileNotFoundError (msg : string)
  | HTTPError (msg : string)
      (* httpx.HTTPError with its subclasses, httpx.TimeoutException among them *)
  | TimeoutExpired (cmd : list string) (timeout : Z)
      (* subprocess.TimeoutExpired *)
  | HTTPException (status_code : Z) (detail : string)
                  (headers : list (string * string)).
      (* fastapi.HTTPException *)

Inductive result (A : Type) : Type :=
  | Ok (a : A)
  | Raise (e : exn).
Arguments Ok {A} a.
Arguments Raise {A} e.

Definition rbind {A B} (r : result A) (k : A -> result B) : result B :=
  match r with
  | Ok a => k a
  | Raise e => Raise e
  end.

Declare Scope result_scope.
Delimit Scope result_scope with result.
Notation "'let*' x ':=' r 'in' k" := (rbind r (fun x => k))
  (at level 10, x name, r at level 100, k at level 200) : result_scope.

(** ** Numbers *)

Definition Qltb (a b : Q) : bool := negb (Qle_bool b a).

(** [a / b] on floats: division by zero raises. *)
Definition py_div (a b : Q) : result Q :=
  if Qeq_bool b 0 then Raise (ZeroDivisionError "float division by zero")
  else Ok (a / b)%Q.

(** [round(x)]: to the nearest integer, ties to the even one. *)
Definition py_round (x : Q) : Z :=
  let f := Qfloor x in
  let r := (x - inject_Z f)%Q in
  if Qltb r (1 # 2) then f
  else if Qltb (1 # 2) r then f + 1
  else if Z.even f then f else f + 1.

(** [round(math.sqrt(x))], as one exact operation: with
    [m = floor (sqrt (4 x))] the root lies in [[m/2, (m+1)/2)], so it
    rounds down when [m] is even and up when [m] is odd, except at an
    exact half ([4 x = m * m], [m] odd) where the even neighbour wins.
    [math.sqrt] raises on a negative argument. *)
Definition round_sqrt (x : Q) : result Z :=
  if Qltb x 0 then Raise (ValueError "math domain error")
  else
    let m := Z.sqrt (Qfloor (4 * x)) in
    let k := m / 2 in
    if Z.even m then Ok k
    else if Qeq_bool (4 * x) (inject_Z (m * m)) then
           Ok (if Z.even k then k else k + 1)
         else Ok (k + 1).

(** [range(n)] *)
Definition py_range (n : Z) : list Z := seqZ 0 n.

(** ** Text *)

(** [str(n)] for an [int]. *)
Definition str_of_int (n : Z) : string := NilZero.string_of_int (Z.to_int n).

Definition is_digit (c : ascii) : bool :=
  let n := nat_of_ascii c in (48 <=? n)%nat && (n <=? 57)%nat.

Definition digit_value (c : ascii) : Z := Z.of_nat (nat_of_ascii c) - 48.

(** [int(s)] for a string of decimal digits, most significant first.
    (The interpreter's cap on the length of the string is not part of
    the model.) *)
Fixpoint int_of_digits_acc (acc : Z) (s : string) : Z :=
  match s with
  | EmptyString => acc
  | String c s' => int_of_digits_acc (10 * acc + digit_value c) s'
  end.

Definition int_of_digits (s : string) : Z := int_of_digits_acc 0 s.

Fixpoint all_digits (s : string) : bool :=
  match s with
  | EmptyString => true
  | String c s' => is_digit c && all_digits s'
  end.

(** Left-pad a decimal numeral with zeros to [width] characters; at most
    [fuel] zeros are added. *)
Fixpoint zero_pad_fuel (fuel width : nat) (s : string) : string :=
  match fuel with
  | O => s
  | S fuel' =>
      if (String.length s <? width)%nat then zero_pad_fuel fuel' width ("0" ++ s)
      else s
  end.

Definition zero_pad (width : nat) (s : string) : string :=
  zero_pad_fuel width width s.

(** [format(x, ".4f")]: four decimals, the last one rounded half to even. *)
Definition format_4f (x : Q) : string :=
  let scaled := py_round (Qabs x * 10000) in
  let sign := if Qltb x 0 then "-" else "" in
  sign ++ str_of_int (scaled / 10000) ++ "."
       ++ zero_pad 4 (str_of_int (scaled mod 10000)).


(* ================================================================== *)
(** * The environment *)
(* ================================================================== *)

(** The file system: regular files with their contents, and the
    directories that were made. *)
Record FS : Type := mkFS {
  files : gmap string (list byte);
  dirs : gset string;
}.

(** What [subprocess.run(..., capture_output=True)] hands back. *)
Record CompletedProcess : Type := mkCompletedProcess {
  returncode : Z;
  stderr : string;
}.

(** Every effect the code has on its surroundings, in the order it
    happens. *)
Inductive event : Type :=
  | EvIsFile (path : string)                 (* os.path.isfile *)
  | EvGetSize (path : string)                (* os.path.getsize *)
  | EvOpenRead (path : string)               (* open(path, "rb") *)
  | EvWrite (path : string)                  (* open(path, "wb") and write *)
  | EvMakedirs (path : string)               (* os.makedirs *)
  | EvGlob (pattern : string)                (* glob.glob *)
  | EvPost (url data : string)               (* httpx post *)
  | EvSleep (seconds : Z)                    (* time.sleep *)
  | EvUpdateState (state step : string)      (* self.update_state *)
  | EvRun (cmd : list string) (timeout : Z). (* subprocess.run *)

(** Everything the code calls that is not code of the repository. *)
Record Env : Type := mkEnv {
  (** [repr] of a float, as an f-string prints it *)
  float_repr : Q -> string;
  (** the server behind [httpx.Client.post] followed by
      [raise_for_status]: given what happened so far, the url and the
      form data, either the message of the [httpx.HTTPError] raised or
      the body of the response *)
  http_post : list event -> string -> string -> string + list byte;
  (** an external command run on the file system with a timeout: it runs
      to completion ([Some]) or exceeds the timeout ([None]); in both
      cases it may have written files *)
  run_command : list string -> Z -> FS -> option CompletedProcess * FS;
  (** [glob.glob] *)
  glob : string -> FS -> list string;
}.

(** app/config.py: settings read from the process environment. *)
Record Config : Type := mkConfig {
  DATA_DIR : string;
  MKGMAP_JAR : string;
  SPLITTER_JAR : string;
  OVERPASS_URL : string;
  MAX_BBOX_AREA_DEG2 : Q;
  OVERPASS_TILE_DEG2 : Q;
}.

Definition default_config : Config := {|
  DATA_DIR := "/data/jobs";
  MKGMAP_JAR := "/opt/mkgmap/mkgmap.jar";
  SPLITTER_JAR := "/opt/splitter/splitter.jar";
  OVERPASS_URL := "https://overpass-api.de/api/interpreter";
  MAX_BBOX_AREA_DEG2 := 4;
  OVERPASS_TILE_DEG2 := 1 # 4;
|}.

(* ================================================================== *)
(** * app/models/schemas.py *)
(* ================================================================== *)

Record BBox : Type := mkBBox {
  south : Q;
  west : Q;
  north : Q;
  east : Q;
}.

Module Schemas.

Definition validate_lat (v : Q) : result Q :=
  if Qle_bool (-90) v && Qle_bool v 90 then Ok v
  else Raise (ValueError "Latitude must be between -90 and 90").

Definition validate_lon (v : Q) : result Q :=
  if Qle_bool (-180) v && Qle_bool v 180 then Ok v
  else Raise (ValueError "Longitude must be between -180 and 180").

(** Construction of a [BBox] model: the field validators run on each
    coordinate. *)
Definition BBox_new (s w n e : Q) : result BBox :=
  (let* s' := validate_lat s in
   let* w' := validate_lon w in
   let* n' := validate_lat n in
   let* e' := validate_lon e in
   Ok (mkBBox s' w' n' e'))%result.

Definition area_deg2 (self : BBox) : Q :=
  (Qabs (north self - south self) * Qabs (east self - west self))%Q.

Definition too_large_message (env : Env) (cfg : Config) (area : Q) : string :=
  "Selected area (" ++ format_4f area ++ " deg²) exceeds maximum ("
    ++ float_repr env (MAX_BBOX_AREA_DEG2 cfg)
    ++ " deg²). Please select a smaller region.".

Definition validate_area (env : Env) (cfg : Config) (self : BBox) : result unit :=
  let area := area_deg2 self in
  if Qltb (MAX_BBOX_AREA_DEG2 cfg) area then
    Raise (ValueError (too_large_message env cfg area))
  else if Qltb area (1 # 1000000) then
    Raise (ValueError "Selected area is too small.")
  else Ok tt.

End Schemas.

(* ================================================================== *)
(** * app/services/osm_downloader.py, the pure part *)
(* ================================================================== *)

Module Tiling.

(** The loop that adds a row or a column until the grid has enough
    cells. Each round adds at least one cell, so [num_tiles] rounds
    are always enough; [fuel] counts the rounds left. *)
Fixpoint grow_grid (fuel : nat) (num_tiles n_lat n_lon : Z) : Z * Z :=
  match fuel with
  | O => (n_lat, n_lon)
  | S fuel' =>
      if n_lat * n_lon <? num_tiles then
        if n_lat <=? n_lon then grow_grid fuel' num_tiles (n_lat + 1) n_lon
        else grow_grid fuel' num_tiles n_lat (n_lon + 1)
      else (n_lat, n_lon)
  end.

(** One cell of the grid, as the body of the two [for] loops builds it. *)
Definition make_tile (bbox : BBox) (lat_step lon_step : Q) (i j : Z) : BBox :=
  {| south := south bbox + inject_Z i * lat_step;
     west := west bbox + inject_Z j * lon_step;
     north := Qmin (south bbox + inject_Z (i + 1) * lat_step) (north bbox);
     east := Qmin (west bbox + inject_Z (j + 1) * lon_step) (east bbox) |}%Q.

Definition grid_tiles (bbox : BBox) (n_lat n_lon : Z) (lat_step lon_step : Q)
  : list BBox :=
  flat_map (fun i => map (make_tile bbox lat_step lon_step i) (py_range n_lon))
           (py_range n_lat).

Definition _compute_tiles (bbox : BBox) (max_tile_area : Q) : result (list BBox) :=
  let lat_span := (north bbox - south bbox)%Q in
  let lon_span := (east bbox - west bbox)%Q in
  let total_area := (lat_span * lon_span)%Q in
  if Qle_bool total_area max_tile_area then Ok [bbox]
  else
    (let* ratio := py_div total_area max_tile_area in
     let num_tiles := Qceiling ratio in
     let* aspect :=
       (if Qltb 0 lat_span then py_div lon_span lat_span else Ok 1%Q) in
     let* per_lat := py_div (inject_Z num_tiles) aspect in
     let* r_lat := round_sqrt per_lat in
     let n_lat := Z.max 1 r_lat in
     let* r_lon := round_sqrt (inject_Z num_tiles * aspect) in
     let n_lon := Z.max 1 r_lon in
     let '(n_lat, n_lon) :=
       grow_grid (Z.to_nat num_tiles) num_tiles n_lat n_lon in
     let* lat_step := py_div lat_span (inject_Z n_lat) in
     let* lon_step := py_div lon_span (inject_Z n_lon) in
     Ok (grid_tiles bbox n_lat n_lon lat_step lon_step))%result.

End Tiling.

(* ================================================================== *)
(** * Effects *)
(* ================================================================== *)

Record World : Type := mkWorld {
  fs : FS;
  trace : list event;
}.

Definition M (A : Type) : Type := World -> result A * World.

Definition ret {A} (a : A) : M A := fun w => (Ok a, w).

Definition raise {A} (e : exn) : M A := fun w => (Raise e, w).

Definition bind {A B} (m : M A) (k : A -> M B) : M B :=
  fun w =>
    match m w with
    | (Ok a, w') => k a w'
    | (Raise e, w') => (Raise e, w')
    end.

(** [try: m except <classes>: h] *)
Definition try_except {A} (m : M A) (catches : exn -> bool) (h : exn -> M A) : M A :=
  fun w =>
    match m w with
    | (Ok a, w') => (Ok a, w')
    | (Raise e, w') => if catches e then h e w' else (Raise e, w')
    end.

Definition lift {A} (r : result A) : M A := fun w => (r, w).

Declare Scope M_scope.
Delimit Scope M_scope with M.
Notation "'let*' x ':=' m 'in' k" := (bind m (fun x => k))
  (at level 10, x name, m at level 100, k at level 200) : M_scope.
Notation "m ';;' k" := (bind m (fun _ => k))
  (at level 100, k at level 200, right associativity) : M_scope.

Definition emit (ev : event) : M unit :=
  fun w => (Ok tt, {| fs := fs w; trace := trace w ++ [ev] |}).

Definition when (c : bool) (m : M unit) : M unit := if c then m else ret tt.

(** [for x in l: body(x)] *)
Fixpoint for_each {A} (l : list A) (body : A -> M unit) : M unit :=
  match l with
  | [] => ret tt
  | x :: l' => (body x ;; for_each l' body)%M
  end.

(** A [for] loop whose body appends one value to a list. *)
Fixpoint for_collect {A B} (l : list A) (body : A -> M B) : M (list B) :=
  match l with
  | [] => ret []
  | x :: l' =>
      (let* y := body x in
       let* ys := for_collect l' body in
       ret (y :: ys))%M
  end.

(** ** Operating-system calls *)

Definition starts_with (p s : string) : bool := String.prefix p s.

Definition ends_with (p s : string) : bool :=
  let n := String.length s in
  let k := String.length p in
  (k <=? n)%nat && String.eqb (String.substring (n - k) k s) p.

Definition path_join (a b : string) : string :=
  if starts_with "/" b then b
  else if String.eqb a "" || ends_with "/" a then a ++ b
  else a ++ "/" ++ b.

Definition os_path_isfile (path : string) : M bool :=
  (emit (EvIsFile path) ;;
   fun w => (Ok (bool_decide (is_Some (files (fs w) !! path))), w))%M.

Definition os_path_getsize (path : string) : M Z :=
  (emit (EvGetSize path) ;;
   fun w =>
     match files (fs w) !! path with
     | Some content => (Ok (Z.of_nat (length content)), w)
     | None => (Raise (FileNotFoundError path), w)
     end)%M.

(** [with open(path, "rb") as f]: the contents, to be read through a
    position. *)
Definition open_rb (path : string) : M (list byte) :=
  (emit (EvOpenRead path) ;;
   fun w =>
     match files (fs w) !! path with
     | Some content => (Ok content, w)
     | None => (Raise (FileNotFoundError path), w)
     end)%M.

(** [with open(path, "wb") as f: f.write(content)] *)
Definition write_file (path : string) (content : list byte) : M unit :=
  (emit (EvWrite path) ;;
   fun w =>
     (Ok tt, {| fs := {| files := <[path := content]> (files (fs w));
                         dirs := dirs (fs w) |};
                trace := trace w |}))%M.

(** [os.makedirs(path, exist_ok=True)] *)
Definition os_makedirs (path : string) : M unit :=
  (emit (EvMakedirs path) ;;
   fun w =>
     (Ok tt, {| fs := {| files := files (fs w);
                         dirs := {[ path ]} ∪ dirs (fs w) |};
                trace := trace w |}))%M.

Definition glob_glob (env : Env) (pattern : string) : M (list string) :=
  (emit (EvGlob pattern) ;;
   fun w => (Ok (glob env pattern (fs w)), w))%M.

Definition time_sleep (seconds : Z) : M unit := emit (EvSleep seconds).

(** [self.update_state(state=..., meta={"step": ...})] *)
Definition update_state (state step : string) : M unit :=
  emit (EvUpdateState state step).

(** [subprocess.run(cmd, capture_output=True, text=True, timeout=t)] *)
Definition subprocess_run (env : Env) (cmd : list string) (timeout : Z)
  : M CompletedProcess :=
  (emit (EvRun cmd timeout) ;;
   fun w =>
     match run_command env cmd timeout (fs w) with
     | (Some proc, fs') => (Ok proc, {| fs := fs'; trace := trace w |})
     | (None, fs') =>
         (Raise (TimeoutExpired cmd timeout), {| fs := fs'; trace := trace w |})
     end)%M.

(** [client.post(url, data={"data": query})] then [raise_for_status()],
    yielding [resp.content]. *)
Definition httpx_post (env : Env) (url data : string) : M (list byte) :=
  fun w =>
    let w' := {| fs := fs w; trace := trace w ++ [EvPost url data] |} in
    match http_post env (trace w) url data with
    | inr content => (Ok content, w')
    | inl msg => (Raise (HTTPError msg), w')
    end.

(** [except (httpx.HTTPError, httpx.TimeoutException)] *)
Definition is_httpx_error (e : exn) : bool :=
  match e with
  | HTTPError _ => true
  | _ => false
  end.

(* ================================================================== *)
(** * app/services/osm_downloader.py, the effectful part *)
(* ================================================================== *)

Module OsmDownloader.
Import Tiling.

Definition nl : string := String (ascii_of_nat 10) "".

Definition _build_query (env : Env) (south west north east : Q) : string :=
  let box :=
    "(" ++ float_repr env south ++ "," ++ float_repr env west ++ ","
        ++ float_repr env north ++ "," ++ float_repr env east ++ ");" in
  nl ++ "    [out:xml][timeout:300];" ++ nl
     ++ "    (" ++ nl
     ++ "      node" ++ box ++ nl
     ++ "      way" ++ box ++ nl
     ++ "      relation" ++ box ++ nl
     ++ "    );" ++ nl
     ++ "    (._;>;);" ++ nl
     ++ "    out meta;" ++ nl
     ++ "    ".

(** One pass through the body of [for attempt in range(2)]: post, check
    the status, write the file. *)
Definition fetch_once (env : Env) (cfg : Config) (query output_path : string)
  : M unit :=
  (let* content := httpx_post env (OVERPASS_URL cfg) query in
   write_file output_path content)%M.

(** The [for attempt in ...] loop; leaving it by [return] ends the
    function. *)
Fixpoint attempt_loop (env : Env) (cfg : Config) (query output_path : string)
    (attempts : list Z) : M unit :=
  match attempts with
  | [] => ret tt
  | attempt :: rest =>
      fun w =>
        match fetch_once env cfg query output_path w with
        | (Ok tt, w') => (Ok tt, w')
        | (Raise e, w') =>
            if is_httpx_error e then
              if attempt =? 0 then
                (time_sleep 5 ;;
                 attempt_loop env cfg query output_path rest)%M w'
              else (Raise e, w')
            else (Raise e, w')
        end
  end.

Definition _download_tile (env : Env) (cfg : Config) (tile : BBox)
    (output_path : string) : M unit :=
  let query :=
    _build_query env (south tile) (west tile) (north tile) (east tile) in
  attempt_loop env cfg query output_path (py_range 2).

(** [enumerate(l, 1)] *)
Definition enumerate1 {A} (l : list A) : list (Z * A) :=
  zip (seqZ 1 (Z.of_nat (length l))) l.

Definition call_progress (progress_callback : option (string -> M unit))
    (msg : string) : M unit :=
  match progress_callback with
  | Some cb => cb msg
  | None => ret tt
  end.

Definition tile_progress_message (idx count : Z) : string :=
  "Downloading tile " ++ str_of_int idx ++ "/" ++ str_of_int count ++ "...".

Definition tile_file_name (idx : Z) : string :=
  "tile_" ++ zero_pad 3 (str_of_int idx) ++ ".osm".

Definition merge_progress_message (count : Z) : string :=
  "Merging " ++ str_of_int count ++ " tiles...".

Definition download_osm_data (env : Env) (cfg : Config) (bbox : BBox)
    (job_dir : string) (progress_callback : option (string -> M unit))
  : M string :=
  (let* tiles := lift (_compute_tiles bbox (OVERPASS_TILE_DEG2 cfg)) in
   let output_path := path_join job_dir "map.osm" in
   let count := Z.of_nat (length tiles) in
   (match tiles with
    | [tile] =>
        call_progress progress_callback "Downloading OSM data..." ;;
        _download_tile env cfg tile output_path
    | _ =>
        let tile_dir := path_join job_dir "tiles" in
        os_makedirs tile_dir ;;
        let* tile_files :=
          for_collect (enumerate1 tiles) (fun '(idx, tile) =>
            call_progress progress_callback (tile_progress_message idx count) ;;
            let tile_path := path_join tile_dir (tile_file_name idx) in
            _download_tile env cfg tile tile_path ;;
            when (idx <? count) (time_sleep 1) ;;
            ret tile_path) in
        call_progress progress_callback (merge_progress_message count) ;;
        let cmd := (["osmium"; "merge"] ++ tile_files
                      ++ ["-o"; output_path; "--overwrite"])%list in
        let* proc := subprocess_run env cmd 300 in
        if negb (returncode proc =? 0) then
          raise (RuntimeError ("osmium merge failed: " ++ stderr proc))
        else ret tt
    end) ;;
   let* size := os_path_getsize output_path in
   if size <? 100 then
     raise (ValueError "Downloaded OSM data is too small — area may be empty")
   else ret output_path)%M.

End OsmDownloader.

(* ================================================================== *)
(** * app/services/map_compiler.py *)
(* ================================================================== *)

Module MapCompiler.

Definition convert_to_pbf (env : Env) (osm_file job_dir : string) : M string :=
  (let pbf_file := path_join job_dir "map.osm.pbf" in
   let cmd := ["osmium"; "sort"; osm_file; "-o"; pbf_file; "--overwrite"] in
   let* proc := subprocess_run env cmd 120 in
   if negb (returncode proc =? 0) then
     raise (RuntimeError ("osmium convert failed: " ++ stderr proc))
   else ret pbf_file)%M.

Definition run_splitter (env : Env) (cfg : Config) (osm_file job_dir : string)
  : M unit :=
  (let splitter_dir := path_join job_dir "splitter_output" in
   os_makedirs splitter_dir ;;
   let cmd := ["java"; "-Xmx4g"; "-jar"; SPLITTER_JAR cfg;
               "--output-dir=" ++ splitter_dir; osm_file] in
   let* proc := subprocess_run env cmd 300 in
   if negb (returncode proc =? 0) then
     raise (RuntimeError ("Splitter failed: " ++ stderr proc))
   else ret tt)%M.

Definition run_mkgmap (env : Env) (cfg : Config) (job_dir : string) : M unit :=
  (let splitter_dir := path_join job_dir "splitter_output" in
   let* pbf_files := glob_glob env (path_join splitter_dir "*.osm.pbf") in
   match pbf_files with
   | [] => raise (FileNotFoundError "No PBF tiles found from splitter")
   | _ =>
       let template_args := path_join splitter_dir "template.args" in
       let cmd := ["java"; "-Xmx4g"; "-jar"; MKGMAP_JAR cfg;
                   "--gmapsupp";
                   "--output-dir=" ++ job_dir;
                   "--route";
                   "--add-pois-to-areas";
                   "--index";
                   "--family-id=6324";
                   "--series-name=OSM Garmin";
                   "--family-name=OSM Garmin";
                   "--description=Custom OSM Map"] in
       let* has_template := os_path_isfile template_args in
       let cmd := (if has_template then cmd ++ ["-c"; template_args]
                   else cmd ++ pbf_files)%list in
       let* proc := subprocess_run env cmd 300 in
       if negb (returncode proc =? 0) then
         raise (RuntimeError ("mkgmap failed: " ++ stderr proc))
       else ret tt
   end)%M.

End MapCompiler.

(* ================================================================== *)
(** * app/tasks/map_tasks.py *)
(* ================================================================== *)

Module MapTasks.
Import OsmDownloader MapCompiler.

Definition MSG_DOWNLOADING : string := "Downloading OSM data...".
Definition MSG_CONVERTING : string := "Converting to PBF...".
Definition MSG_SPLITTING : string := "Splitting map tiles...".
Definition MSG_COMPILING : string := "Compiling Garmin IMG...".

(** The closure handed to the downloader as its progress callback. *)
Definition on_progress (msg : string) : M unit := update_state "PROGRESS" msg.

(** The body of the task; [job_id] is [self.request.id]. The value it
    returns stands for the dict with the one key [filename]. *)
Definition generate_map (env : Env) (cfg : Config) (job_id : string)
    (bbox : BBox) : M string :=
  (let job_dir := path_join (DATA_DIR cfg) job_id in
   os_makedirs job_dir ;;
   try_except
     (update_state "PROGRESS" MSG_DOWNLOADING ;;
      let* osm_file := download_osm_data env cfg bbox job_dir (Some on_progress) in
      update_state "PROGRESS" MSG_CONVERTING ;;
      let* pbf_file := convert_to_pbf env osm_file job_dir in
      update_state "PROGRESS" MSG_SPLITTING ;;
      run_splitter env cfg pbf_file job_dir ;;
      update_state "PROGRESS" MSG_COMPILING ;;
      run_mkgmap env cfg job_dir ;;
      let img_path := path_join job_dir "gmapsupp.img" in
      let* present := os_path_isfile img_path in
      if negb present then
        raise (FileNotFoundError "mkgmap did not produce gmapsupp.img")
      else ret "gmapsupp.img")
     (fun _ => true)
     (fun e => raise e))%M.

(** What the task queue records when the task ends: the state that
    status polling reports from then on. *)
Inductive final_state : Type :=
  | SUCCESS (filename : string)
  | FAILURE (e : exn).

Definition run_task (env : Env) (cfg : Config) (job_id : string) (bbox : BBox)
    (w : World) : final_state * World :=
  match generate_map env cfg job_id bbox w with
  | (Ok filename, w') => (SUCCESS filename, w')
  | (Raise e, w') => (FAILURE e, w')
  end.

End MapTasks.

(* ================================================================== *)
(** * app/api/routes.py *)
(* ================================================================== *)

Module Routes.

Definition DOWNLOAD_CHUNK_SIZE : Z := 1024 * 1024.

(** ** The regular expression of [_parse_range]

    [re.match] with the pattern: the literal [bytes=], a first group
    of one or more digits, a dash, a second group of zero or more
    digits. The match is anchored at the start of the string only:
    whatever follows the second group is ignored. Both groups are
    greedy runs of digits, and no digit can stand for the dash that
    follows the first group, so backtracking never finds a match that
    the longest runs miss. A header value reaches the route as a
    string of single-byte characters, among which the only decimal
    digits are 0 to 9. *)

Fixpoint strip_prefix (p s : string) : option string :=
  match p, s with
  | EmptyString, _ => Some s
  | String a p', String c s' =>
      if Ascii.eqb a c then strip_prefix p' s' else None
  | String _ _, EmptyString => None
  end.

(** The longest prefix of digits, and what follows it. *)
Fixpoint span_digits (s : string) : string * string :=
  match s with
  | String c s' =>
      if is_digit c then
        let '(ds, rest) := span_digits s' in (String c ds, rest)
      else (EmptyString, s)
  | EmptyString => (EmptyString, EmptyString)
  end.

(** The two groups of the match, if there is one. *)
Definition match_range (range_header : string) : option (string * string) :=
  match strip_prefix "bytes=" range_header with
  | None => None
  | Some after =>
      let '(group1, after1) := span_digits after in
      if String.eqb group1 "" then None
      else
        match after1 with
        | String "-"%char after2 =>
            let '(group2, _) := span_digits after2 in Some (group1, group2)
        | _ => None
        end
  end.

Definition _parse_range (range_header : string) (file_size : Z)
  : result (Z * Z) :=
  match match_range range_header with
  | None => Raise (HTTPException 416 "Invalid Range header" [])
  | Some (group1, group2) =>
      let start := int_of_digits group1 in
      let end_ := if String.eqb group2 "" then file_size - 1
                  else int_of_digits group2 in
      if (file_size <=? start) || (file_size <=? end_) || (end_ <? start) then
        Raise (HTTPException 416 "Range not satisfiable"
                 [("Content-Range", "bytes */" ++ str_of_int file_size)])
      else Ok (start, end_)
  end.

(** ** The chunk generator *)

(** [f.read(n)] at position [pos]: up to [n] bytes, fewer at the end
    of the file. *)
Definition file_read (content : list byte) (pos : nat) (n : Z) : list byte :=
  take (Z.to_nat n) (drop pos content).

(** The [while remaining > 0] loop, yielding its chunks. Each round
    that does not break reads at least one byte, so [remaining] rounds
    are always enough; [fuel] counts the rounds left. *)
Fixpoint chunk_loop (fuel : nat) (chunk_size : Z) (content : list byte)
    (pos : nat) (remaining : Z) : list (list byte) :=
  match fuel with
  | O => []
  | S fuel' =>
      if 0 <? remaining then
        let chunk := file_read content pos (Z.min chunk_size remaining) in
        match chunk with
        | [] => []
        | _ =>
            chunk :: chunk_loop fuel' chunk_size content
                       (pos + length chunk)
                       (remaining - Z.of_nat (length chunk))
        end
      else []
  end.

Definition file_chunks (chunk_size : Z) (content : list byte) (start end_ : Z)
  : list (list byte) :=
  let remaining := end_ - start + 1 in
  chunk_loop (Z.to_nat remaining) chunk_size content (Z.to_nat start) remaining.

(** The chunks in the order the generator yields them. *)
Definition _file_chunk_iterator (path : string) (start end_ : Z)
  : M (list (list byte)) :=
  (let* content := open_rb path in
   ret (file_chunks DOWNLOAD_CHUNK_SIZE content start end_))%M.

(** ** The download route *)

Inductive response : Type :=
  | FileResponse (path : string) (media_type : string) (filename : string)
                 (headers : list (string * string))
  | StreamingResponse (body : list (list byte)) (status_code : Z)
                      (media_type : string) (headers : list (string * string)).

(** [range_header] is [request.headers.get("range")]. The body of the
    streaming response is the generator run to its end. *)
Definition download_file (cfg : Config) (job_id filename : string)
    (range_header : option string) : M response :=
  (if negb (String.eqb filename "gmapsupp.img") then
     raise (HTTPException 400 "Invalid filename" [])
   else
     let file_path := path_join (path_join (DATA_DIR cfg) job_id) filename in
     let* present := os_path_isfile file_path in
     if negb present then raise (HTTPException 404 "File not found" [])
     else
       let* file_size := os_path_getsize file_path in
       match range_header with
       | None | Some EmptyString =>
           ret (FileResponse file_path "application/octet-stream" filename
                  [("Accept-Ranges", "bytes");
                   ("Content-Length", str_of_int file_size)])
       | Some range_header =>
           let* range := lift (_parse_range range_header file_size) in
           let '(start, end_) := range in
           let content_length := end_ - start + 1 in
           let* body := _file_chunk_iterator file_path start end_ in
           ret (StreamingResponse body 206 "application/octet-stream"
                  [("Accept-Ranges", "bytes");
                   ("Content-Range",
                    "bytes " ++ str_of_int start ++ "-" ++ str_of_int end_
                      ++ "/" ++ str_of_int file_size);
                   ("Content-Length", str_of_int content_length);
                   ("Content-Disposition",
                    "attachment; filename=" ++ String (ascii_of_nat 34) ""
                      ++ filename ++ String (ascii_of_nat 34) "")])
       end)%M.

End Routes.

(* ================================================================== *)
(** * The vocabulary of the properties *)
(* ================================================================== *)

Import Tiling OsmDownloader MapCompiler MapTasks Routes.

(** ** Tilings *)

Module TilingSpec.

(** The area as [_compute_tiles] computes it: signed. *)
Definition signed_area (b : BBox) : Q :=
  ((north b - south b) * (east b - west b))%Q.






End TilingSpec.

(** A box with both axes inverted: north below south, east left of west. *)
Definition inverted_box : BBox := mkBBox 1 1 0 0.

(** ** Validation *)


(** ** Range headers *)

(** Nothing that the second group of the pattern could still swallow. *)
Definition no_digit_ahead (s : string) : Prop :=
  match s with
  | String c _ => is_digit c = false
  | EmptyString => True
  end.

(** The error of a range that cannot be served. *)
Definition unsatisfiable (file_size : Z) : exn :=
  HTTPException 416 "Range not satisfiable"
    [("Content-Range", "bytes */" ++ str_of_int file_size)].

(** ** The download route *)

(** The one file of a job that may be served. *)
Definition canonical_path (cfg : Config) (job_id : string) : string :=
  path_join (path_join (DATA_DIR cfg) job_id) "gmapsupp.img".

(** The headers of a 206 answer. *)
Definition partial_headers (start end_ file_size : Z) : list (string * string) :=
  [("Accept-Ranges", "bytes");
   ("Content-Range",
    "bytes " ++ str_of_int start ++ "-" ++ str_of_int end_
      ++ "/" ++ str_of_int file_size);
   ("Content-Length", str_of_int (end_ - start + 1));
   ("Content-Disposition",
    "attachment; filename=" ++ String (ascii_of_nat 34) ""
      ++ "gmapsupp.img" ++ String (ascii_of_nat 34) "")].

(** The event reads the file at [path], or asks about it. *)
Definition reads_only (path : string) (ev : event) : Prop :=
  ev = EvIsFile path \/ ev = EvGetSize path \/ ev = EvOpenRead path.

(** The response carries the file at [path] and nothing else. *)
Definition serves (path : string) (w : World) (resp : response) : Prop :=
  match resp with
  | FileResponse p _ name _ => p = path /\ name = "gmapsupp.img"
  | StreamingResponse body _ _ _ =>
      exists content n k,
        files (fs w) !! path = Some content
        /\ concat body = take n (drop k content)
  end.

(** ** Traces *)

(** The world after one more event. *)
Definition add_event (w : World) (ev : event) : World :=
  {| fs := fs w; trace := trace w ++ [ev] |}.

Definition is_post (ev : event) : bool :=
  match ev with
  | EvPost _ _ => true
  | _ => false
  end.

(** How many requests a stretch of the trace holds. *)
Definition count_posts (tr : list event) : nat :=
  length (List.filter is_post tr).

(** The file system after [content] is written to [path]. *)
Definition write_to (path : string) (content : list byte) (f : FS) : FS :=
  {| files := <[path := content]> (files f); dirs := dirs f |}.

(** What a computation adds to the trace: every event satisfies [P]. *)
Definition emits {A} (P : event -> Prop) (m : M A) : Prop :=
  forall w, exists t, trace (snd (m w)) = (trace w ++ t)%list /\ Forall P t.

(** ** The state machine of a job *)

Inductive PipelineState : Type :=
  | Queued | Downloading | Converting | Splitting | Compiling
  | Completed | Failed.

#[global] Instance PipelineState_eq_dec : EqDecision PipelineState.
Proof. solve_decision. Defined.

(** The state a progress message reports. Messages of the download step
    (one per tile, and the merge) belong to [Downloading]. *)
Definition state_of_message (msg : string) : option PipelineState :=
  if String.eqb msg MSG_CONVERTING then Some Converting
  else if String.eqb msg MSG_SPLITTING then Some Splitting
  else if String.eqb msg MSG_COMPILING then Some Compiling
  else if starts_with "Downloading" msg || starts_with "Merging" msg
       then Some Downloading
  else None.

Definition state_of_event (ev : event) : option PipelineState :=
  match ev with
  | EvUpdateState state step =>
      if String.eqb state "PROGRESS" then state_of_message step else None
  | _ => None
  end.



Definition job_dir_of (cfg : Config) (job_id : string) : string :=
  path_join (DATA_DIR cfg) job_id.

Definition artifact_path (cfg : Config) (job_id : string) : string :=
  path_join (job_dir_of cfg job_id) "gmapsupp.img".


(** No report of a state at all. *)
Definition silent (ev : event) : Prop := state_of_event ev = None.

(** Nothing but reports of [Downloading]. *)
Definition downloading_only (ev : event) : Prop :=
  state_of_event ev = None \/ state_of_event ev = Some Downloading.



(** ** A run with every collaborator scripted *)

(** The progress messages of a trace, and the commands it ran. *)
Definition progress_messages (tr : list event) : list string :=
  omap (fun ev => match ev with
                  | EvUpdateState _ step => Some step
                  | _ => None
                  end) tr.

Definition commands_run (tr : list event) : list string :=
  omap (fun ev => match ev with
                  | EvRun cmd _ => Some (String.concat " " (take 2 cmd))
                  | _ => None
                  end) tr.

(** The server answers every request with 200 bytes, [glob] finds one
    tile, the commands chosen by [fails] exit with code 1 and the others
    with code 0, and mkgmap, when it succeeds, writes the artifact of
    job [j1]. *)
Definition scripted_env (fails : list string -> bool) : Env := {|
  float_repr := fun q => str_of_int (Qfloor q);
  http_post := fun _ _ _ => inr (repeat x00 200);
  run_command := fun cmd _ f =>
    if fails cmd then (Some (mkCompletedProcess 1 "boom"), f)
    else (Some (mkCompletedProcess 0 ""),
          if bool_decide ("--gmapsupp" ∈ cmd)
          then {| files := <["/data/jobs/j1/gmapsupp.img" := [x00]]> (files f);
                  dirs := dirs f |}
          else f);
  glob := fun _ _ => ["/data/jobs/j1/splitter_output/63240001.osm.pbf"];
|}.

Definition empty_world : World := {| fs := {| files := ∅; dirs := ∅ |}; trace := [] |}.

Definition small_box : BBox := mkBBox 45 7 (451 # 10) (71 # 10).

(* ================================================================== *)
(** * More of the code: the routes that start a job and report on it *)
(* ================================================================== *)

Module Api.

(** [str.lower()], on the characters a one-byte string can hold: the
    letters A to Z and the capital letters of Latin-1. *)
Definition lower_char (c : ascii) : ascii :=
  let n := nat_of_ascii c in
  if ((65 <=? n) && (n <=? 90))%nat then ascii_of_nat (n + 32)
  else if ((192 <=? n) && (n <=? 222) && negb (n =? 215))%nat
       then ascii_of_nat (n + 32)
  else c.

Fixpoint str_lower (s : string) : string :=
  match s with
  | EmptyString => EmptyString
  | String c s' => String (lower_char c) (str_lower s')
  end.

(** [d.get(key, default)] on a dict of strings. *)
Definition dict_get (d : gmap string string) (key default : string) : string :=
  match d !! key with
  | Some v => v
  | None => default
  end.

(** What the route reads of [generate_map.AsyncResult(job_id)]: the
    state, the meta dict when [info] is one ([info or {}] otherwise),
    and [str(info)]. *)
Record AsyncResult : Type := mkAsyncResult {
  state : string;
  info_meta : gmap string string;
  info_str : string;
}.

Record JobStatus : Type := mkJobStatus {
  job_id : string;
  status : string;
  progress : option string;
  error : option string;
  filename : option string;
  file_size : option Z;
}.


Definition get_status (cfg : Config) (job : string) (result : AsyncResult)
  : M JobStatus :=
  (if String.eqb (state result) "PENDING" then
     ret (mkJobStatus job "queued" None None None None)
   else if String.eqb (state result) "PROGRESS" then
     ret (mkJobStatus job "processing"
            (Some (dict_get (info_meta result) "step" "")) None None None)
   else if String.eqb (state result) "SUCCESS" then
     let img_path := path_join (path_join (DATA_DIR cfg) job) "gmapsupp.img" in
     let* present := os_path_isfile img_path in
     let* size :=
       (if present then (let* n := os_path_getsize img_path in ret (Some n))
        else ret None) in
     ret (mkJobStatus job "completed" None None (Some "gmapsupp.img") size)
   else if String.eqb (state result) "FAILURE" then
     ret (mkJobStatus job "failed" None (Some (info_str result)) None None)
   else
     ret (mkJobStatus job (str_lower (state result)) None None None None))%M.



End Api.

(* ================================================================== *)
(** * More vocabulary *)
(* ================================================================== *)

(** A header that starts with a range of one of the two forms. *)
Definition has_range_prefix (h : string) : Prop :=
  exists ds de rest,
    h = "bytes=" ++ ds ++ "-" ++ de ++ rest
    /\ all_digits ds = true /\ ds <> ""
    /\ all_digits de = true /\ no_digit_ahead rest.

(** The point lies strictly inside the box. *)
Definition interior (lat lon : Q) (b : BBox) : Prop :=
  (south b < lat /\ lat < north b /\ west b < lon /\ lon < east b)%Q.

(** A world whose only file is a three-byte artifact of job [j1]. *)
Definition three_byte_world : World :=
  {| fs := {| files := {[ "/data/jobs/j1/gmapsupp.img" := [x00; x01; x02] ]};
              dirs := ∅ |};
     trace := [] |}.

(** The box with south and north swapped, and with west and east
    swapped. *)
Definition swap_ns (b : BBox) : BBox :=
  mkBBox (north b) (west b) (south b) (east b).

Definition swap_ew (b : BBox) : BBox :=
  mkBBox (south b) (east b) (north b) (west b).

(** ** The downloads of a tiled request *)

(** The query sent for a tile. *)
Definition tile_query (env : Env) (tile : BBox) : string :=
  _build_query env (south tile) (west tile) (north tile) (east tile).

(** The file a tile is saved in. *)
Definition tile_path (job_dir : string) (idx : Z) : string :=
  path_join (path_join job_dir "tiles") (tile_file_name idx).

(** The callback the task passes, or none. *)
Definition callback (report : bool) : option (string -> M unit) :=
  if report then Some on_progress else None.

(** What a report adds to the trace. *)
Definition reported (report : bool) (msg : string) : list event :=
  if report then [EvUpdateState "PROGRESS" msg] else [].



(** Creating a directory or reporting progress. *)
Definition housekeeping (ev : event) : Prop :=
  match ev with
  | EvMakedirs _ | EvUpdateState _ _ => True
  | _ => False
  end.

(** The server is down: every request fails. *)
Definition server_down (env : Env) : Prop :=
  forall tr url data, exists msg, http_post env tr url data = inl msg.


(** An environment whose server never answers. *)
Definition dead_server_env : Env := {|
  float_repr := fun q => str_of_int (Qfloor q);
  http_post := fun _ _ _ => inl "connection refused";
  run_command := fun _ _ f => (Some (mkCompletedProcess 0 ""), f);
  glob := fun _ _ => [];
|}.

(** A box of one square degree, four tiles with the default threshold. *)
Definition four_tile_box : BBox := mkBBox 45 7 46 8.

(** ** The commands of the pipeline *)

Definition sort_command (job_dir : string) : list string :=
  ["osmium"; "sort"; path_join job_dir "map.osm";
   "-o"; path_join job_dir "map.osm.pbf"; "--overwrite"].

Definition splitter_command (cfg : Config) (job_dir : string) : list string :=
  ["java"; "-Xmx4g"; "-jar"; SPLITTER_JAR cfg;
   "--output-dir=" ++ path_join job_dir "splitter_output";
   path_join job_dir "map.osm.pbf"].

Definition mkgmap_options (cfg : Config) (job_dir : string) : list string :=
  ["java"; "-Xmx4g"; "-jar"; MKGMAP_JAR cfg;
   "--gmapsupp";
   "--output-dir=" ++ job_dir;
   "--route";
   "--add-pois-to-areas";
   "--index";
   "--family-id=6324";
   "--series-name=OSM Garmin";
   "--family-name=OSM Garmin";
   "--description=Custom OSM Map"].

(** Where the splitter leaves its tiles and its list of them. *)
Definition tiles_pattern (job_dir : string) : string :=
  path_join (path_join job_dir "splitter_output") "*.osm.pbf".

Definition template_args (job_dir : string) : string :=
  path_join (path_join job_dir "splitter_output") "template.args".

(** What mkgmap is given to compile, in a file system [f]. *)
Definition mkgmap_inputs (env : Env) (job_dir : string) (f : FS) : list string :=
  if bool_decide (is_Some (files f !! template_args job_dir))
  then ["-c"; template_args job_dir]
  else glob env (tiles_pattern job_dir) f.

(** The outcome of a command. *)
Definition exit_code (env : Env) (cmd : list string) (timeout : Z) (f : FS)
  : option Z :=
  option_map returncode (fst (run_command env cmd timeout f)).

(* ================================================================== *)
(** * Properties *)
(* ================================================================== *)

Import TilingSpec.

(** ** Comparisons and division on rationals *)

Lemma Qltb_lt a b : Qltb a b = true <-> (a < b)%Q.
Proof.
  unfold Qltb. rewrite negb_true_iff. split.
  - intros H. apply Qnot_le_lt. intros Hle. apply Qle_bool_iff in Hle. congruence.
  - intros H. destruct (Qle_bool b a) eqn:E; [|done].
    apply Qle_bool_iff in E. lra.
Qed.

Lemma Qltb_ge a b : Qltb a b = false <-> (b <= a)%Q.
Proof.
  unfold Qltb. rewrite negb_false_iff. apply Qle_bool_iff.
Qed.

Lemma py_div_ok a b : ~ (b == 0)%Q -> py_div a b = Ok (a / b)%Q.
Proof.
  intros H. unfold py_div. destruct (Qeq_bool b 0) eqn:E; [|done].
  apply Qeq_bool_iff in E. contradiction.
Qed.

Lemma round_sqrt_ok x : (0 <= x)%Q -> exists r, round_sqrt x = Ok r.
Proof.
  intros H. unfold round_sqrt.
  destruct (Qltb x 0) eqn:E.
  - apply Qltb_lt in E. lra.
  - repeat case_match; eauto.
Qed.

(** ** The loop that grows the grid *)

Lemma grow_grid_spec fuel num a b :
  1 <= a -> 1 <= b -> num - a * b <= Z.of_nat fuel ->
  let '(a', b') := grow_grid fuel num a b in
  a <= a' /\ b <= b' /\ num <= a' * b'.
Proof.
  revert a b. induction fuel as [|fuel IH]; intros a b Ha Hb Hf; simpl.
  - lia.
  - destruct (Z.ltb_spec (a * b) num) as [Hlt|Hge]; [|lia].
    destruct (Z.leb_spec a b) as [Hle|Hgt].
    + specialize (IH (a + 1) b). destruct (grow_grid fuel num (a + 1) b) as [a' b'].
      destruct IH as (? & ? & ?); [lia | lia | nia | lia].
    + specialize (IH a (b + 1)). destruct (grow_grid fuel num a (b + 1)) as [a' b'].
      destruct IH as (? & ? & ?); [lia | lia | nia | lia].
Qed.

(** The loop of [_compute_tiles] leaves with its condition false: the
    rounds allotted to it are enough, whatever the grid it starts from. *)
Lemma grow_grid_exit num a b :
  1 <= a -> 1 <= b ->
  let '(a', b') := grow_grid (Z.to_nat num) num a b in
  (a' * b' <? num) = false.
Proof.
  intros Ha Hb.
  pose proof (grow_grid_spec (Z.to_nat num) num a b Ha Hb) as H.
  destruct (grow_grid (Z.to_nat num) num a b) as [a' b'].
  destruct H as (_ & _ & H); [nia|]. apply Z.ltb_ge. exact H.
Qed.

(** ** The tiles of a grid, by index *)

(** Rows of equal length laid end to end: the element at [k] is in row
    [k / m] at place [k mod m]. *)
Lemma lookup_flat_map_rows {A B} (g : A -> list B) (m : nat) (l : list A) (k : nat) :
  (0 < m)%nat -> (forall x, length (g x) = m) ->
  flat_map g l !! k = l !! (k / m)%nat ≫= (fun x => g x !! (k mod m)%nat).
Proof.
  intros Hm Hlen. revert k. induction l as [|x l IH]; intros k; simpl.
  - done.
  - destruct (Nat.lt_ge_cases k m) as [Hlt|Hge].
    + rewrite lookup_app_l by (rewrite Hlen; lia).
      rewrite Nat.div_small, Nat.mod_small by lia. done.
    + apply Nat.le_exists_sub in Hge as (p & -> & _).
      rewrite lookup_app_r by (rewrite Hlen; lia). rewrite Hlen.
      replace (p + m - m)%nat with p by lia. rewrite IH.
      replace (p + m)%nat with (p + 1 * m)%nat by lia.
      rewrite Nat.div_add, Nat.Div0.mod_add by lia.
      rewrite Nat.add_1_r. done.
Qed.

Lemma length_flat_map_rows {A B} (g : A -> list B) (m : nat) (l : list A) :
  (forall x, length (g x) = m) -> length (flat_map g l) = (length l * m)%nat.
Proof.
  intros Hlen. induction l as [|x l IH]; simpl; [done|].
  rewrite length_app, Hlen, IH. done.
Qed.

(** Row-major order: the tile of row [i] and column [j] is at index
    [i * n_lon + j]. *)
Section Grid.
Variables (b : BBox) (n_lat n_lon : Z) (h w : Q).
Hypothesis Hlat : 1 <= n_lat.
Hypothesis Hlon : 1 <= n_lon.

Lemma grid_length :
  length (grid_tiles b n_lat n_lon h w) = Z.to_nat (n_lat * n_lon).
Proof.
  unfold grid_tiles, py_range.
  rewrite (length_flat_map_rows _ (Z.to_nat n_lon)).
  - rewrite length_seqZ. lia.
  - intros x. rewrite length_map, length_seqZ. done.
Qed.

Lemma grid_lookup (k : nat) (t : BBox) :
  grid_tiles b n_lat n_lon h w !! k = Some t <->
  exists i j, 0 <= i < n_lat /\ 0 <= j < n_lon
              /\ Z.of_nat k = i * n_lon + j /\ t = make_tile b h w i j.
Proof.
  unfold grid_tiles, py_range.
  rewrite (lookup_flat_map_rows _ (Z.to_nat n_lon)); [|lia|].
  2:{ intros x. rewrite length_map, length_seqZ. done. }
  set (m := Z.to_nat n_lon).
  split.
  - intros H. apply bind_Some in H as (i & Hi & Hj).
    apply lookup_seqZ in Hi as [-> Hi].
    rewrite list_lookup_fmap in Hj. apply fmap_Some in Hj as (j & Hj & ->).
    apply lookup_seqZ in Hj as [-> Hj].
    exists (0 + Z.of_nat (k / m)), (0 + Z.of_nat (k mod m)).
    repeat split; try lia.
    pose proof (Nat.div_mod_eq k m). lia.
  - intros (i & j & Hi & Hj & Hk & ->).
    assert (Hkm : (k / m)%nat = Z.to_nat i /\ (k mod m)%nat = Z.to_nat j).
    { assert (k = Z.to_nat i * m + Z.to_nat j)%nat as -> by lia.
      rewrite Nat.div_add_l, Nat.Div0.add_mod, Nat.Div0.mod_mul by lia.
      rewrite Nat.div_small, Nat.add_0_l, Nat.Div0.mod_mod, Nat.mod_small by lia. lia. }
    destruct Hkm as [-> ->].
    rewrite (lookup_seqZ_lt 0 n_lat (Z.to_nat i)) by lia. simpl.
    rewrite list_lookup_fmap, (lookup_seqZ_lt 0 n_lon (Z.to_nat j)) by lia. simpl.
    do 2 f_equal; lia.
Qed.
End Grid.

Lemma inject_Z_succ i : (inject_Z (i + 1) == inject_Z i + 1)%Q.
Proof. rewrite inject_Z_plus. reflexivity. Qed.

(** ** The rounding operations of the model *)

(** [py_round] picks a nearest integer, and the even one of two. *)
Lemma py_round_nearest x :
  (inject_Z (py_round x) - (1 # 2) <= x <= inject_Z (py_round x) + (1 # 2))%Q
  /\ ((x == inject_Z (py_round x) + (1 # 2) \/ x == inject_Z (py_round x) - (1 # 2))%Q
      -> Z.even (py_round x) = true).
Proof.
  unfold py_round.
  pose proof (Qfloor_le x) as Hlo. pose proof (Qlt_floor x) as Hhi.
  rewrite inject_Z_succ in Hhi.
  set (f := Qfloor x) in *.
  destruct (Qltb (x - inject_Z f) (1 # 2)) eqn:E1.
  { apply Qltb_lt in E1. split; [lra|]. intros [H|H]; lra. }
  apply Qltb_ge in E1.
  destruct (Qltb (1 # 2) (x - inject_Z f)) eqn:E2.
  { apply Qltb_lt in E2. rewrite inject_Z_succ. split; [lra|]. intros [H|H]; lra. }
  apply Qltb_ge in E2.
  destruct (Z.even f) eqn:E3.
  - split; [lra|]. done.
  - rewrite inject_Z_succ. split; [lra|]. intros _.
    rewrite Z.even_add, E3. done.
Qed.

(** [round_sqrt] picks an integer within a half of the square root, and
    the even one when the root lies exactly between two. *)
Lemma round_sqrt_nearest x r :
  round_sqrt x = Ok r ->
  0 <= r
  /\ (4 * x <= inject_Z ((2 * r + 1) * (2 * r + 1)))%Q
  /\ (1 <= r -> (inject_Z ((2 * r - 1) * (2 * r - 1)) <= 4 * x)%Q).
Proof.
  unfold round_sqrt. destruct (Qltb x 0) eqn:Ex; [done|].
  apply Qltb_ge in Ex.
  pose proof (Qfloor_le (4 * x)) as Hlo. pose proof (Qlt_floor (4 * x)) as Hhi.
  set (n := Qfloor (4 * x)) in *.
  assert (Hn : 0 <= n).
  { change 0 with (Qfloor 0). apply Qfloor_resp_le. lra. }
  pose proof (Z.sqrt_spec n Hn) as Hm. cbv zeta in Hm. pose proof (Z.sqrt_nonneg n) as Hm0.
  set (m := Z.sqrt n) in *. cbv zeta. clearbody m. clearbody n.
  pose proof (Z.div_mod m 2 ltac:(lia)) as Hdiv.
  assert (Hle : forall a b : Z, a <= b -> (inject_Z a <= inject_Z b)%Q)
    by (intros; by rewrite <- Zle_Qle).
  set (k := m / 2) in *. clearbody k.
  destruct (Z.even m) eqn:Em.
  - intros [= <-].
    assert (m = 2 * k) as -> by (rewrite Zmod_even, Em in Hdiv; lia).
    split; [lia|]. split.
    + eapply Qle_trans; [apply Qlt_le_weak, Hhi|]. apply Hle. lia.
    + intros H1. eapply Qle_trans; [|exact Hlo]. apply Hle. nia.
  - assert (m = 2 * k + 1) as -> by (rewrite Zmod_even, Em in Hdiv; lia).
    destruct (Qeq_bool (4 * x) (inject_Z ((2 * k + 1) * (2 * k + 1)))) eqn:Et.
    + apply Qeq_bool_iff in Et.
      destruct (Z.even k); intros [= <-]; (split; [lia|]); rewrite Et;
        (split; [apply Hle; nia|intros _; apply Hle; nia]).
    + intros [= <-]. split; [lia|]. split.
      * eapply Qle_trans; [apply Qlt_le_weak, Hhi|]. apply Hle. nia.
      * intros _. eapply Qle_trans; [|exact Hlo]. apply Hle.
        replace (2 * (k + 1) - 1) with (2 * k + 1) by lia. lia.
Qed.

Example format_4f_examples :
  format_4f (40001 # 10000) = "4.0001" /\ format_4f 4 = "4.0000"
  /\ format_4f (1 # 3) = "0.3333" /\ format_4f (1 # 10000000) = "0.0000".
Proof. repeat split. Qed.

Example round_sqrt_examples :
  round_sqrt 4 = Ok 2 /\ round_sqrt (25 # 4) = Ok 2 /\ round_sqrt (9 # 4) = Ok 2
  /\ round_sqrt 2 = Ok 1 /\ round_sqrt 3 = Ok 2.
Proof. repeat split. Qed.

(** ** Steps of the grid *)

Lemma inj_pos n : 1 <= n -> (0 < inject_Z n)%Q.
Proof. intros H. change 0%Q with (inject_Z 0). rewrite <- Zlt_Qlt. lia. Qed.

Lemma step_total span n :
  1 <= n -> (span / inject_Z n * inject_Z n == span)%Q.
Proof. intros H. pose proof (inj_pos n H). field. lra. Qed.

Lemma step_pos span n : 1 <= n -> (0 < span)%Q -> (0 < span / inject_Z n)%Q.
Proof.
  intros H Hs. pose proof (inj_pos n H) as Hn.
  apply Qlt_shift_div_l; lra.
Qed.

Lemma step_within span n i :
  1 <= n -> (0 < span)%Q -> 0 <= i <= n ->
  (0 <= inject_Z i * (span / inject_Z n) <= span)%Q.
Proof.
  intros H Hs Hi. pose proof (step_pos span n H Hs) as Hp.
  pose proof (step_total span n H) as Ht.
  assert (0 <= inject_Z i)%Q.
  { change 0%Q with (inject_Z 0). rewrite <- Zle_Qle. lia. }
  assert (inject_Z i <= inject_Z n)%Q by (rewrite <- Zle_Qle; lia).
  split; [nra|]. rewrite <- Ht at 2. rewrite (Qmult_comm _ (inject_Z n)).
  apply Qmult_le_compat_r; lra.
Qed.

(** The edges of a cell of the grid over a box that is the right way up:
    the clamp to the parent's north and east changes nothing. *)
Section WellOriented.
Variables (b : BBox) (n_lat n_lon : Z).
Hypothesis Hns : (south b < north b)%Q.
Hypothesis Hwe : (west b < east b)%Q.
Hypothesis Hlat : 1 <= n_lat.
Hypothesis Hlon : 1 <= n_lon.

Let h : Q := ((north b - south b) / inject_Z n_lat)%Q.
Let w : Q := ((east b - west b) / inject_Z n_lon)%Q.

Lemma make_tile_edges i j :
  0 <= i < n_lat -> 0 <= j < n_lon ->
  (south (make_tile b h w i j) == south b + inject_Z i * h
   /\ north (make_tile b h w i j) == south b + (inject_Z i + 1) * h
   /\ west (make_tile b h w i j) == west b + inject_Z j * w
   /\ east (make_tile b h w i j) == west b + (inject_Z j + 1) * w)%Q.
Proof.
  intros Hi Hj. simpl.
  pose proof (step_within (north b - south b) n_lat (i + 1)) as Hn.
  pose proof (step_within (east b - west b) n_lon (j + 1)) as He.
  rewrite inject_Z_succ in Hn, He. fold h in Hn. fold w in He.
  split; [reflexivity|]. split; [|split; [reflexivity|]].
  - rewrite Q.min_l; rewrite inject_Z_succ; [reflexivity|].
    destruct Hn; [lia|lra|lia|]. lra.
  - rewrite Q.min_l; rewrite inject_Z_succ; [reflexivity|].
    destruct He; [lia|lra|lia|]. lra.
Qed.
End WellOriented.


(** ** A grid with enough cells tiles its parent exactly *)

Section GridTiling.
Variables (b : BBox) (T : Q) (n_lat n_lon : Z).
Hypothesis Hns : (south b < north b)%Q.
Hypothesis Hwe : (west b < east b)%Q.
Hypothesis HT : (0 < T)%Q.
Hypothesis Hlat : 1 <= n_lat.
Hypothesis Hlon : 1 <= n_lon.
Hypothesis Hnum : Qceiling (signed_area b / T) <= n_lat * n_lon.

Let h : Q := ((north b - south b) / inject_Z n_lat)%Q.
Let w : Q := ((east b - west b) / inject_Z n_lon)%Q.
Let tiles := grid_tiles b n_lat n_lon h w.


End GridTiling.

(** ** [_compute_tiles] *)

(** On a box that is the right way up and too large for one tile, the
    function returns, and returns a grid with enough cells. *)
Lemma compute_tiles_grid (b : BBox) (T : Q) :
  (0 < T)%Q -> (south b < north b)%Q -> (T < signed_area b)%Q ->
  exists n_lat n_lon,
    1 <= n_lat /\ 1 <= n_lon
    /\ Qceiling (signed_area b / T) <= n_lat * n_lon
    /\ _compute_tiles b T
       = Ok (grid_tiles b n_lat n_lon
               ((north b - south b) / inject_Z n_lat)
               ((east b - west b) / inject_Z n_lon)).
Proof.
  intros HT Hns Harea. unfold signed_area in Harea.
  assert (Hwe : (west b < east b)%Q) by nra.
  unfold _compute_tiles, signed_area.
  set (lat_span := (north b - south b)%Q) in *.
  set (lon_span := (east b - west b)%Q) in *.
  assert (Hlat : (0 < lat_span)%Q) by (unfold lat_span; lra).
  assert (Hlon : (0 < lon_span)%Q) by (unfold lon_span; lra).
  destruct (Qle_bool (lat_span * lon_span) T) eqn:E.
  { apply Qle_bool_iff in E. lra. }
  rewrite py_div_ok by lra. simpl.
  set (num := Qceiling (lat_span * lon_span / T)).
  assert (Hnum : 1 <= num).
  { assert (1 < lat_span * lon_span / T)%Q by (apply Qlt_shift_div_l; lra).
    pose proof (Qle_ceiling (lat_span * lon_span / T)) as Hc. fold num in Hc.
    assert (inject_Z 0 < inject_Z num)%Q as Hlt by (change (inject_Z 0) with 0%Q; lra).
    rewrite <- Zlt_Qlt in Hlt. lia. }
  assert (Hnumq : (0 < inject_Z num)%Q) by (apply inj_pos; lia).
  apply Qltb_lt in Hlat as Hb. rewrite Hb. clear Hb.
  rewrite py_div_ok by lra. simpl.
  assert (Hasp : (0 < lon_span / lat_span)%Q) by (apply Qlt_shift_div_l; lra).
  rewrite py_div_ok by lra. simpl.
  destruct (round_sqrt_ok (inject_Z num / (lon_span / lat_span))) as [r1 ->].
  { apply Qle_shift_div_l; lra. }
  simpl.
  destruct (round_sqrt_ok (inject_Z num * (lon_span / lat_span))) as [r2 ->].
  { nra. }
  simpl.
  pose proof (grow_grid_spec (Z.to_nat num) num (Z.max 1 r1) (Z.max 1 r2)) as Hg.
  destruct (grow_grid (Z.to_nat num) num (Z.max 1 r1) (Z.max 1 r2)) as [n_lat n_lon].
  destruct Hg as (Hg1 & Hg2 & Hg3); [lia|lia|nia|].
  assert (1 <= n_lat) by lia. assert (1 <= n_lon) by lia.
  pose proof (inj_pos n_lat ltac:(lia)). pose proof (inj_pos n_lon ltac:(lia)).
  rewrite !py_div_ok by lra. simpl.
  exists n_lat, n_lon. repeat split; try lia. 
Qed.



(** The example of the specification: 4 square degrees under a threshold
    of a quarter make a grid of 4 by 4. *)
Example compute_tiles_sixteen :
  exists tiles,
    _compute_tiles (mkBBox 44 6 46 8) (1 # 4) = Ok tiles
    /\ length tiles = 16%nat.
Proof. eexists. split; [vm_compute; reflexivity|reflexivity]. Qed.


(** The fast path: the test of the first [if]. *)
Lemma compute_tiles_fast_path (b : BBox) (T : Q) :
  (signed_area b <= T)%Q -> _compute_tiles b T = Ok [b].
Proof.
  intros Hle. unfold _compute_tiles. unfold signed_area in Hle.
  apply Qle_bool_iff in Hle. rewrite Hle. reflexivity.
Qed.




(** ** Running the monad *)

Lemma run_bind {A B} (m : M A) (k : A -> M B) w :
  bind m k w
  = match m w with
    | (Ok a, w') => k a w'
    | (Raise e, w') => (Raise e, w')
    end.
Proof. reflexivity. Qed.

Lemma run_ret {A} (a : A) w : ret a w = (Ok a, w).
Proof. reflexivity. Qed.

Lemma run_raise {A} e w : @raise A e w = (Raise e, w).
Proof. reflexivity. Qed.

Lemma run_lift {A} (r : result A) w : lift r w = (r, w).
Proof. reflexivity. Qed.

Lemma run_emit ev w : emit ev w = (Ok tt, add_event w ev).
Proof. reflexivity. Qed.

Lemma run_isfile path w :
  os_path_isfile path w
  = (Ok (bool_decide (is_Some (files (fs w) !! path))),
     add_event w (EvIsFile path)).
Proof. reflexivity. Qed.

Lemma run_getsize path w :
  os_path_getsize path w
  = (match files (fs w) !! path with
     | Some content => Ok (Z.of_nat (length content))
     | None => Raise (FileNotFoundError path)
     end, add_event w (EvGetSize path)).
Proof.
  unfold os_path_getsize. rewrite run_bind, run_emit.
  change (fs (add_event w (EvGetSize path))) with (fs w).
  destruct (files (fs w) !! path); reflexivity.
Qed.

Lemma run_open_rb path w :
  open_rb path w
  = (match files (fs w) !! path with
     | Some content => Ok content
     | None => Raise (FileNotFoundError path)
     end, add_event w (EvOpenRead path)).
Proof.
  unfold open_rb. rewrite run_bind, run_emit.
  change (fs (add_event w (EvOpenRead path))) with (fs w).
  destruct (files (fs w) !! path); reflexivity.
Qed.

Lemma run_write_file path content w :
  write_file path content w
  = (Ok tt, {| fs := {| files := <[path := content]> (files (fs w));
                        dirs := dirs (fs w) |};
               trace := trace w ++ [EvWrite path] |}).
Proof. reflexivity. Qed.

Lemma run_makedirs path w :
  os_makedirs path w
  = (Ok tt, {| fs := {| files := files (fs w);
                        dirs := {[ path ]} ∪ dirs (fs w) |};
               trace := trace w ++ [EvMakedirs path] |}).
Proof. reflexivity. Qed.

Lemma run_sleep n w : time_sleep n w = (Ok tt, add_event w (EvSleep n)).
Proof. reflexivity. Qed.

Lemma run_update_state state step w :
  update_state state step w = (Ok tt, add_event w (EvUpdateState state step)).
Proof. reflexivity. Qed.

Lemma run_glob env pattern w :
  glob_glob env pattern w
  = (Ok (glob env pattern (fs w)), add_event w (EvGlob pattern)).
Proof. reflexivity. Qed.

Lemma run_subprocess env cmd timeout w :
  subprocess_run env cmd timeout w
  = (match fst (run_command env cmd timeout (fs w)) with
     | Some proc => Ok proc
     | None => Raise (TimeoutExpired cmd timeout)
     end,
     {| fs := snd (run_command env cmd timeout (fs w));
        trace := trace w ++ [EvRun cmd timeout] |}).
Proof.
  unfold subprocess_run. rewrite run_bind, run_emit.
  change (fs (add_event w (EvRun cmd timeout))) with (fs w).
  change (trace (add_event w (EvRun cmd timeout)))
    with (trace w ++ [EvRun cmd timeout])%list.
  destruct (run_command env cmd timeout (fs w)) as [[proc|] fs']; reflexivity.
Qed.

Lemma run_httpx_post env url data w :
  httpx_post env url data w
  = (match http_post env (trace w) url data with
     | inr content => Ok content
     | inl msg => Raise (HTTPError msg)
     end, add_event w (EvPost url data)).
Proof.
  unfold httpx_post. destruct (http_post env (trace w) url data); reflexivity.
Qed.

Lemma fs_add_event w ev : fs (add_event w ev) = fs w.
Proof. reflexivity. Qed.

Lemma trace_add_event w ev : trace (add_event w ev) = (trace w ++ [ev])%list.
Proof. reflexivity. Qed.

Global Opaque os_path_isfile os_path_getsize open_rb write_file os_makedirs
  time_sleep update_state glob_glob subprocess_run httpx_post emit.

(** ** Range headers *)

Lemma append_nil_l s : "" ++ s = s.
Proof. reflexivity. Qed.

Lemma append_cons c s t : String c s ++ t = String c (s ++ t).
Proof. reflexivity. Qed.

Lemma span_digits_app ds rest :
  all_digits ds = true -> no_digit_ahead rest ->
  span_digits (ds ++ rest) = (ds, rest).
Proof.
  intros Hds Hrest.
  induction ds as [|c ds IH]; cbn [all_digits] in *.
  - rewrite append_nil_l. destruct rest as [|c rest]; [done|].
    cbn [span_digits no_digit_ahead] in *. rewrite Hrest. done.
  - apply andb_true_iff in Hds as [Hc Hds].
    rewrite append_cons. cbn [span_digits]. rewrite Hc, (IH Hds). done.
Qed.

Lemma span_digits_digits s : all_digits (fst (span_digits s)) = true.
Proof.
  induction s as [|c s IH]; cbn [span_digits]; [done|].
  destruct (is_digit c) eqn:E; [|done].
  destruct (span_digits s) as [ds rest]. cbn [fst all_digits] in *.
  rewrite E, IH. done.
Qed.

Lemma digit_value_range c : is_digit c = true -> 0 <= digit_value c <= 9.
Proof.
  unfold is_digit, digit_value. intros H.
  apply andb_true_iff in H as [H1 H2].
  apply Nat.leb_le in H1, H2. lia.
Qed.

Lemma int_of_digits_acc_nonneg s acc :
  all_digits s = true -> 0 <= acc -> 0 <= int_of_digits_acc acc s.
Proof.
  revert acc.
  induction s as [|c s IH]; intros acc Hs Hacc;
    cbn [int_of_digits_acc all_digits] in *; [done|].
  apply andb_true_iff in Hs as [Hc Hs].
  apply IH; [done|]. pose proof (digit_value_range c Hc). lia.
Qed.

Lemma int_of_digits_nonneg s : all_digits s = true -> 0 <= int_of_digits s.
Proof. intros H. apply int_of_digits_acc_nonneg; [done|lia]. Qed.

Lemma strip_prefix_app p s : strip_prefix p (p ++ s) = Some s.
Proof.
  induction p as [|c p IH]; [done|].
  rewrite append_cons. cbn [strip_prefix]. rewrite Ascii.eqb_refl. exact IH.
Qed.

(** The groups of a header of one of the two supported forms, whatever
    follows it. *)
Lemma match_range_prefix ds de rest :
  all_digits ds = true -> ds <> "" -> all_digits de = true ->
  no_digit_ahead rest ->
  match_range ("bytes=" ++ ds ++ "-" ++ de ++ rest) = Some (ds, de).
Proof.
  intros Hds Hne Hde Hrest. unfold match_range.
  rewrite strip_prefix_app.
  rewrite (span_digits_app ds ("-" ++ de ++ rest)) by done.
  destruct (String.eqb ds "") eqn:E.
  { apply String.eqb_eq in E. done. }
  rewrite append_cons, append_nil_l.
  rewrite (span_digits_app de rest) by done. done.
Qed.

Lemma append_empty_r s : s ++ "" = s.
Proof. induction s as [|c s IH]; [done|]. by rewrite append_cons, IH. Qed.

Lemma match_range_wf ds de :
  all_digits ds = true -> ds <> "" -> all_digits de = true ->
  match_range ("bytes=" ++ ds ++ "-" ++ de) = Some (ds, de).
Proof.
  intros Hds Hne Hde.
  rewrite <- (append_empty_r de) at 1.
  apply match_range_prefix; done.
Qed.

Lemma match_range_groups h g1 g2 :
  match_range h = Some (g1, g2) ->
  all_digits g1 = true /\ all_digits g2 = true.
Proof.
  unfold match_range. intros H.
  destruct (strip_prefix "bytes=" h) as [after|]; [|done].
  pose proof (span_digits_digits after) as H1.
  destruct (span_digits after) as [group1 after1].
  destruct (String.eqb group1 ""); [done|].
  destruct after1 as [|c after2]; [done|].
  destruct (Ascii.eqb_spec c "-"%char) as [->|Hc].
  2:{ destruct c as [[] [] [] [] [] [] [] []]; try done. }
  pose proof (span_digits_digits after2) as H2.
  destruct (span_digits after2) as [group2 rest].
  injection H as <- <-. done.
Qed.

(** What [_parse_range] does once the pattern has matched. *)
Lemma parse_range_matched h g1 g2 file_size :
  match_range h = Some (g1, g2) ->
  let start := int_of_digits g1 in
  let end_ := if String.eqb g2 "" then file_size - 1 else int_of_digits g2 in
  0 <= start
  /\ (start <= end_ < file_size -> _parse_range h file_size = Ok (start, end_))
  /\ (~ (start <= end_ < file_size) ->
      _parse_range h file_size = Raise (unsatisfiable file_size)).
Proof.
  intros Hm start end_. unfold _parse_range. rewrite Hm. fold start end_.
  apply match_range_groups in Hm as [H1 _].
  split; [apply int_of_digits_nonneg; done|].
  destruct (Z.leb_spec file_size start), (Z.leb_spec file_size end_),
    (Z.ltb_spec end_ start); simpl; split; intros; try lia; done.
Qed.

Lemma parse_range_ok h file_size start end_ :
  _parse_range h file_size = Ok (start, end_) ->
  0 <= start <= end_ /\ end_ < file_size.
Proof.
  intros H. unfold _parse_range in H.
  destruct (match_range h) as [[g1 g2]|] eqn:Hm; [|done].
  destruct (parse_range_matched h g1 g2 file_size Hm) as (H0 & _ & _).
  destruct (Z.leb_spec file_size (int_of_digits g1)); [done|].
  destruct (Z.leb_spec file_size
              (if String.eqb g2 "" then file_size - 1 else int_of_digits g2));
    [done|].
  destruct (Z.ltb_spec
              (if String.eqb g2 "" then file_size - 1 else int_of_digits g2)
              (int_of_digits g1)); [done|].
  simpl in H. injection H as <- <-. lia.
Qed.



(** C2, where the code departs from the claim. The multi-range header
    [bytes=0-99,200-300] is not rejected: the pattern is matched at the
    start of the header only, so what follows the first range is
    dropped and the request is served as the range (0, 99). *)
Theorem parse_range_accepts_multi_range :
  _parse_range "bytes=0-99,200-300" 1000 = Ok (0, 99).
Proof. reflexivity. Qed.

(** The same for every header: whatever follows a well-formed range,
    if it does not start with a digit, changes nothing. *)
Lemma parse_range_ignores_trailing ds de rest file_size :
  all_digits ds = true -> ds <> "" -> all_digits de = true ->
  no_digit_ahead rest ->
  _parse_range ("bytes=" ++ ds ++ "-" ++ de ++ rest) file_size
  = _parse_range ("bytes=" ++ ds ++ "-" ++ de) file_size.
Proof.
  intros Hds Hne Hde Hrest. unfold _parse_range.
  rewrite match_range_prefix, match_range_wf by done. done.
Qed.

(** ** The chunk generator and the download route *)

Lemma chunk_loop_concat fuel chunk_size (content : list byte) pos remaining :
  0 < chunk_size -> remaining <= Z.of_nat fuel ->
  concat (chunk_loop fuel chunk_size content pos remaining)
  = take (Z.to_nat remaining) (drop pos content).
Proof.
  intros Hcs. revert pos remaining.
  induction fuel as [|fuel IH]; intros pos remaining Hfuel; cbn [chunk_loop].
  - replace (Z.to_nat remaining) with 0%nat by lia. done.
  - destruct (Z.ltb_spec 0 remaining) as [Hpos|Hle].
    2:{ replace (Z.to_nat remaining) with 0%nat by lia. done. }
    unfold file_read.
    assert (Hk : (1 <= Z.to_nat (Z.min chunk_size remaining)
                  <= Z.to_nat remaining)%nat).
    { lia. }
    remember (Z.to_nat (Z.min chunk_size remaining)) as k eqn:Ek. clear Ek.
    remember (drop pos content) as l eqn:El.
    destruct (take k l) as [|b chunk] eqn:Hchunk.
    + apply take_nil_inv in Hchunk as [?| ->]; [lia|]. by rewrite take_nil.
    + assert (Hlen : (1 <= k `min` length l)%nat)
        by (rewrite <- length_take, Hchunk; simpl; lia).
      rewrite <- Hchunk. cbn [concat].
      rewrite IH by (rewrite length_take; lia).
      rewrite length_take.
      replace (drop (pos + k `min` length l) content)
        with (drop (k `min` length l) l) by (subst l; by rewrite drop_drop).
      destruct (Nat.le_gt_cases k (length l)) as [Hin|Hout].
      * rewrite Nat.min_l by lia. rewrite take_take_drop. f_equal. lia.
      * rewrite Nat.min_r by lia. rewrite drop_all, take_nil, app_nil_r.
        rewrite !take_ge by lia. done.
Qed.

Lemma chunk_loop_sizes fuel chunk_size (content : list byte) pos remaining :
  Forall (fun chunk => 0 < Z.of_nat (length chunk) <= chunk_size)
         (chunk_loop fuel chunk_size content pos remaining).
Proof.
  revert pos remaining.
  induction fuel as [|fuel IH]; intros pos remaining; cbn [chunk_loop]; [done|].
  destruct (Z.ltb_spec 0 remaining) as [Hpos|Hle]; [|done].
  unfold file_read.
  destruct (take _ _) as [|b chunk] eqn:Hchunk; [done|].
  constructor; [|apply IH].
  assert (length (take (Z.to_nat (Z.min chunk_size remaining)) (drop pos content))
          <> 0)%nat as Hne by (rewrite Hchunk; done).
  rewrite <- Hchunk. rewrite length_take in *. lia.
Qed.

Lemma file_chunks_concat chunk_size (content : list byte) start end_ :
  0 < chunk_size ->
  concat (file_chunks chunk_size content start end_)
  = take (Z.to_nat (end_ - start + 1)) (drop (Z.to_nat start) content).
Proof. intros H. unfold file_chunks. apply chunk_loop_concat; [done|lia]. Qed.

(** C7. When the Range header resolves to a range [(START, END)] of the
    artifact, the route answers 206 with [Content-Range: bytes
    START-END/size] and [Content-Length: END-START+1], and the chunks of
    the body, put together, are the bytes at the offsets START to END of
    the file and no others: END-START+1 bytes, however long the file
    is. Each chunk holds at least one byte and at most
    [DOWNLOAD_CHUNK_SIZE]. *)
Theorem download_file_partial (cfg : Config) (job_id range_header : string)
    (w : World) (content : list byte) (start end_ : Z) :
  files (fs w) !! canonical_path cfg job_id = Some content ->
  range_header <> "" ->
  _parse_range range_header (Z.of_nat (length content)) = Ok (start, end_) ->
  exists body,
    fst (download_file cfg job_id "gmapsupp.img" (Some range_header) w)
    = Ok (StreamingResponse body 206 "application/octet-stream"
            (partial_headers start end_ (Z.of_nat (length content))))
    /\ concat body
       = take (Z.to_nat (end_ - start + 1)) (drop (Z.to_nat start) content)
    /\ Z.of_nat (length (concat body)) = end_ - start + 1
    /\ (forall i : nat,
          Z.of_nat i <= end_ - start ->
          concat body !! i = content !! (Z.to_nat start + i)%nat)
    /\ Forall (fun chunk => 0 < Z.of_nat (length chunk) <= DOWNLOAD_CHUNK_SIZE)
              body.
Proof.
  intros Hfile Hne Hparse.
  apply parse_range_ok in Hparse as Hrange.
  exists (file_chunks DOWNLOAD_CHUNK_SIZE content start end_).
  pose proof (file_chunks_concat DOWNLOAD_CHUNK_SIZE content start end_
                ltac:(done)) as Hcat.
  split; [|split; [exact Hcat|split; [|split]]].
  - unfold download_file.
    change (String.eqb "gmapsupp.img" "gmapsupp.img") with true. cbn [negb].
    fold (canonical_path cfg job_id).
    rewrite run_bind, run_isfile, bool_decide_eq_true_2 by (eexists; done).
    cbn [negb].
    rewrite run_bind, run_getsize, fs_add_event, Hfile.
    destruct range_header as [|c rh]; [done|].
    rewrite run_bind, run_lift, Hparse.
    unfold _file_chunk_iterator.
    rewrite !run_bind, run_open_rb, !fs_add_event, Hfile. done.
  - rewrite Hcat, length_take, length_drop. lia.
  - intros i Hi. rewrite Hcat.
    rewrite lookup_take_lt by lia. rewrite lookup_drop. done.
  - apply chunk_loop_sizes.
Qed.

Lemma download_file_partial_witness :
  exists body,
    fst (download_file default_config "j1" "gmapsupp.img" (Some "bytes=2-5")
           {| fs := {| files := {[ "/data/jobs/j1/gmapsupp.img"
                                   := [x00; x01; x02; x03; x04; x05; x06; x07] ]};
                       dirs := ∅ |};
              trace := [] |})
    = Ok (StreamingResponse body 206 "application/octet-stream"
            (partial_headers 2 5 8))
    /\ concat body = [x02; x03; x04; x05].
Proof.
  destruct (download_file_partial default_config "j1" "bytes=2-5"
              {| fs := {| files := {[ "/data/jobs/j1/gmapsupp.img"
                                      := [x00; x01; x02; x03; x04; x05; x06; x07] ]};
                          dirs := ∅ |};
                 trace := [] |}
              [x00; x01; x02; x03; x04; x05; x06; x07] 2 5)
    as (body & H1 & H2 & _); [vm_compute; reflexivity | discriminate
                              | vm_compute; reflexivity |].
  exists body. split; [exact H1 | exact H2].
Defined.

Ltac solve_reads :=
  repeat (apply Forall_cons_2; [unfold reads_only; auto|]); apply Forall_nil_2.

(** C9. A request for any file name other than [gmapsupp.img] is
    answered 400 and leaves the world as it was: no call touches the
    file system. A request for [gmapsupp.img] in a job directory that
    does not hold it is answered 404. Whatever the request, the file
    system is only read, only at the path of the job's artifact, and a
    response that carries file data carries data of that file. *)
Theorem download_file_canonical_only (cfg : Config) (job_id filename : string)
    (range_header : option string) (w : World) :
  (filename <> "gmapsupp.img" ->
   download_file cfg job_id filename range_header w
   = (Raise (HTTPException 400 "Invalid filename" []), w))
  /\ (filename = "gmapsupp.img" ->
      files (fs w) !! canonical_path cfg job_id = None ->
      fst (download_file cfg job_id filename range_header w)
      = Raise (HTTPException 404 "File not found" []))
  /\ (fs (snd (download_file cfg job_id filename range_header w)) = fs w
      /\ exists new,
          trace (snd (download_file cfg job_id filename range_header w))
          = (trace w ++ new)%list
          /\ Forall (reads_only (canonical_path cfg job_id)) new
          /\ forall resp,
               fst (download_file cfg job_id filename range_header w) = Ok resp ->
               filename = "gmapsupp.img"
               /\ serves (canonical_path cfg job_id) w resp).
Proof.
  unfold download_file.
  destruct (String.eqb_spec filename "gmapsupp.img") as [->|Hname]; cbn [negb].
  2:{ split; [done|]. split; [done|]. split; [done|].
      exists []. rewrite app_nil_r. repeat split; [constructor|done|done]. }
  fold (canonical_path cfg job_id). set (p := canonical_path cfg job_id).
  split; [done|].
  rewrite run_bind, run_isfile.
  destruct (files (fs w) !! p) as [content|] eqn:Hfile.
  2:{ rewrite bool_decide_eq_false_2 by (intros [? ?]; done). cbn [negb].
      split; [done|]. split; [done|].
      exists [EvIsFile p]. repeat split; [solve_reads|done]. }
  split; [done|].
  rewrite bool_decide_eq_true_2 by (eexists; done). cbn [negb].
  rewrite run_bind, run_getsize, fs_add_event, Hfile.
  assert (Hfull :
    forall headers,
      let r := ret (FileResponse p "application/octet-stream" "gmapsupp.img"
                      headers)
                 (add_event (add_event w (EvIsFile p)) (EvGetSize p)) in
      fs (snd r) = fs w
      /\ exists new, trace (snd r) = (trace w ++ new)%list
          /\ Forall (reads_only p) new
          /\ forall resp, fst r = Ok resp ->
               "gmapsupp.img" = "gmapsupp.img" /\ serves p w resp).
  { intros headers r. subst r. rewrite run_ret. cbn [fst snd].
    split; [done|].
    exists [EvIsFile p; EvGetSize p].
    split; [by rewrite !trace_add_event, <- app_assoc|].
    split; [solve_reads|].
    intros resp [= <-]. done. }
  destruct range_header as [[|c rh]|]; [apply Hfull| |apply Hfull].
  rewrite run_bind, run_lift.
  destruct (_parse_range (String c rh) (Z.of_nat (length content)))
    as [[start end_]|e] eqn:Hparse.
  - unfold _file_chunk_iterator.
    rewrite !run_bind, run_open_rb, !fs_add_event, Hfile, !run_ret.
    cbn [fst snd].
    split; [done|].
    exists [EvIsFile p; EvGetSize p; EvOpenRead p].
    split; [by rewrite !trace_add_event, <- !app_assoc|].
    split; [solve_reads|].
    intros resp [= <-]. split; [done|].
    exists content, (Z.to_nat (end_ - start + 1)), (Z.to_nat start).
    split; [done|]. apply file_chunks_concat. done.
  - cbn [fst snd]. split; [done|].
    exists [EvIsFile p; EvGetSize p].
    split; [by rewrite !trace_add_event, <- app_assoc|].
    split; [solve_reads|done].
Qed.

(** ** Validation *)




(** ** Inverted boxes *)

(** C10, amended. For a box inverted on exactly one axis (north below
    south with west not right of east, or east left of west with south
    not above north) and a threshold [T >= 0], the signed area that
    [_compute_tiles] computes is not positive, although the area the
    validator computes is its opposite; the fast path is taken and the
    box comes back as a single tile, however large it is. *)
Theorem compute_tiles_inverted_once (b : BBox) (T : Q) :
  (0 <= T)%Q ->
  ((north b < south b /\ west b <= east b)
   \/ (east b < west b /\ south b <= north b))%Q ->
  (signed_area b <= 0)%Q
  /\ (Schemas.area_deg2 b == - signed_area b)%Q
  /\ _compute_tiles b T = Ok [b].
Proof.
  intros HT Hinv.
  assert (Hneg : (signed_area b <= 0)%Q).
  { unfold signed_area. destruct Hinv as [[H1 H2]|[H1 H2]]; nra. }
  split; [exact Hneg|]. split.
  - unfold Schemas.area_deg2, signed_area.
    destruct Hinv as [[H1 H2]|[H1 H2]].
    + rewrite (Qabs_neg (north b - south b)) by lra.
      rewrite (Qabs_pos (east b - west b)) by lra. ring.
    + rewrite (Qabs_pos (north b - south b)) by lra.
      rewrite (Qabs_neg (east b - west b)) by lra. ring.
  - apply compute_tiles_fast_path. lra.
Qed.

Lemma compute_tiles_inverted_once_witness :
  (signed_area (mkBBox 2 0 0 2) <= 0)%Q
  /\ (Schemas.area_deg2 (mkBBox 2 0 0 2) == - signed_area (mkBBox 2 0 0 2))%Q
  /\ _compute_tiles (mkBBox 2 0 0 2) (1 # 4) = Ok [mkBBox 2 0 0 2].
Proof.
  apply compute_tiles_inverted_once.
  - vm_compute. discriminate.
  - left. split; [reflexivity | vm_compute; discriminate].
Defined.

(** C10 as stated fails on a box inverted on both axes: north is below
    south and east is left of west, yet the signed area is positive and
    the box is cut into four tiles. *)
Lemma compute_tiles_inverted_twice_partitioned :
  (north inverted_box < south inverted_box)%Q
  /\ (east inverted_box < west inverted_box)%Q
  /\ ~ (signed_area inverted_box <= 0)%Q
  /\ (exists tiles,
        _compute_tiles inverted_box (1 # 4) = Ok tiles /\ length tiles = 4%nat)
  /\ _compute_tiles inverted_box (1 # 4) <> Ok [inverted_box].
Proof.
  split; [reflexivity|]. split; [reflexivity|].
  split; [vm_compute; intros H; apply H; reflexivity|].
  split.
  - eexists. split; [vm_compute; reflexivity|reflexivity].
  - vm_compute. discriminate.
Qed.

(** ** One tile, two attempts *)

Lemma run_fetch_once env cfg query path w :
  fetch_once env cfg query path w
  = match http_post env (trace w) (OVERPASS_URL cfg) query with
    | inr content =>
        (Ok tt, {| fs := write_to path content (fs w);
                   trace := (trace w ++ [EvPost (OVERPASS_URL cfg) query;
                                         EvWrite path])%list |})
    | inl msg =>
        (Raise (HTTPError msg), add_event w (EvPost (OVERPASS_URL cfg) query))
    end.
Proof.
  unfold fetch_once. rewrite run_bind, run_httpx_post.
  destruct (http_post env (trace w) (OVERPASS_URL cfg) query); [done|].
  rewrite run_write_file, fs_add_event, trace_add_event, <- app_assoc. done.
Qed.


(** ** What each step adds to the trace *)

Lemma emits_ret {A} P (a : A) : emits P (ret a).
Proof. intros w. exists []. by rewrite app_nil_r. Qed.

Lemma emits_raise {A} P e : emits P (@raise A e).
Proof. intros w. exists []. by rewrite app_nil_r. Qed.

Lemma emits_lift {A} P (r : result A) : emits P (lift r).
Proof. intros w. exists []. by rewrite app_nil_r. Qed.

Lemma emits_bind {A B} P (m : M A) (k : A -> M B) :
  emits P m -> (forall a, emits P (k a)) -> emits P (bind m k).
Proof.
  intros Hm Hk w. rewrite run_bind.
  destruct (Hm w) as (t1 & Ht1 & HP1).
  destruct (m w) as [[a|e] w1]; cbn [snd] in *.
  - destruct (Hk a w1) as (t2 & Ht2 & HP2).
    exists (t1 ++ t2)%list. rewrite Ht2, Ht1, app_assoc.
    split; [done|]. by apply Forall_app.
  - exists t1. done.
Qed.

Lemma emits_isfile P path : P (EvIsFile path) -> emits P (os_path_isfile path).
Proof.
  intros HP w. exists [EvIsFile path]. rewrite run_isfile.
  split; [done|]. by apply Forall_singleton.
Qed.

Lemma emits_getsize P path : P (EvGetSize path) -> emits P (os_path_getsize path).
Proof.
  intros HP w. exists [EvGetSize path]. rewrite run_getsize.
  split; [done|]. by apply Forall_singleton.
Qed.

Lemma emits_write P path content :
  P (EvWrite path) -> emits P (write_file path content).
Proof.
  intros HP w. exists [EvWrite path]. rewrite run_write_file.
  split; [done|]. by apply Forall_singleton.
Qed.

Lemma emits_makedirs P path : P (EvMakedirs path) -> emits P (os_makedirs path).
Proof.
  intros HP w. exists [EvMakedirs path]. rewrite run_makedirs.
  split; [done|]. by apply Forall_singleton.
Qed.

Lemma emits_sleep P n : P (EvSleep n) -> emits P (time_sleep n).
Proof.
  intros HP w. exists [EvSleep n]. rewrite run_sleep.
  split; [done|]. by apply Forall_singleton.
Qed.

Lemma emits_update_state P state step :
  P (EvUpdateState state step) -> emits P (update_state state step).
Proof.
  intros HP w. exists [EvUpdateState state step]. rewrite run_update_state.
  split; [done|]. by apply Forall_singleton.
Qed.

Lemma emits_glob P env pattern : P (EvGlob pattern) -> emits P (glob_glob env pattern).
Proof.
  intros HP w. exists [EvGlob pattern]. rewrite run_glob.
  split; [done|]. by apply Forall_singleton.
Qed.

Lemma emits_subprocess P env cmd timeout :
  P (EvRun cmd timeout) -> emits P (subprocess_run env cmd timeout).
Proof.
  intros HP w. exists [EvRun cmd timeout]. rewrite run_subprocess.
  split; [done|]. by apply Forall_singleton.
Qed.

Lemma emits_post P env url data :
  P (EvPost url data) -> emits P (httpx_post env url data).
Proof.
  intros HP w. exists [EvPost url data]. rewrite run_httpx_post.
  split; [done|]. by apply Forall_singleton.
Qed.

Lemma emits_when P (c : bool) m : emits P m -> emits P (when c m).
Proof. intros H. destruct c; [exact H|apply emits_ret]. Qed.

Lemma emits_for_collect {A B} P (l : list A) (body : A -> M B) :
  (forall x, emits P (body x)) -> emits P (for_collect l body).
Proof.
  intros Hbody. induction l as [|x l IH]; cbn [for_collect].
  - apply emits_ret.
  - apply emits_bind; [apply Hbody|]. intros y.
    apply emits_bind; [apply IH|]. intros ys. apply emits_ret.
Qed.

Lemma emits_silent_downloading {A} (m : M A) :
  emits silent m -> emits downloading_only m.
Proof.
  intros H w. destruct (H w) as (t & Ht & HP). exists t. split; [done|].
  eapply Forall_impl; [exact HP|]. intros ev Hev. by left.
Qed.

Ltac emits_step :=
  first
    [ apply emits_ret | apply emits_raise | apply emits_lift
    | apply emits_isfile; reflexivity
    | apply emits_getsize; reflexivity
    | apply emits_write; reflexivity
    | apply emits_makedirs; reflexivity
    | apply emits_sleep; reflexivity
    | apply emits_glob; reflexivity
    | apply emits_subprocess; reflexivity
    | apply emits_post; reflexivity
    | apply emits_bind; [|intros ?]
    | apply emits_when ].

Ltac emits_auto :=
  repeat first
    [ emits_step
    | match goal with
      | |- emits _ (if ?c then _ else _) => destruct c
      | |- emits _ (match ?x with _ => _ end) => destruct x
      end ].




Lemma attempt_loop_silent env cfg query output_path attempts :
  emits silent (attempt_loop env cfg query output_path attempts).
Proof.
  induction attempts as [|attempt rest IH]; cbn [attempt_loop].
  - apply emits_ret.
  - intros w.
    assert (Hfetch : emits silent (fetch_once env cfg query output_path))
      by (unfold fetch_once; emits_auto).
    destruct (Hfetch w) as (t1 & Ht1 & HP1).
    destruct (fetch_once env cfg query output_path w) as [[[]|e] w1];
      cbn [snd] in *.
    + exists t1. done.
    + destruct (is_httpx_error e); [|by exists t1].
      destruct (attempt =? 0); [|by exists t1].
      assert (Hrest : emits silent
                (bind (time_sleep 5)
                   (fun _ => attempt_loop env cfg query output_path rest)))
        by (apply emits_bind; [apply emits_sleep; reflexivity|intros _; exact IH]).
      destruct (Hrest w1) as (t2 & Ht2 & HP2).
      exists (t1 ++ t2)%list. rewrite Ht2, Ht1, app_assoc.
      split; [done|]. by apply Forall_app.
Qed.

Lemma download_tile_silent env cfg tile output_path :
  emits silent (_download_tile env cfg tile output_path).
Proof. apply attempt_loop_silent. Qed.

Lemma on_progress_downloading msg :
  state_of_message msg = Some Downloading ->
  emits downloading_only (call_progress (Some on_progress) msg).
Proof.
  intros H. cbn [call_progress]. unfold on_progress.
  apply emits_update_state. right. cbn [state_of_event].
  change (String.eqb "PROGRESS" "PROGRESS") with true. exact H.
Qed.

Lemma state_of_tile_progress idx count :
  state_of_message (tile_progress_message idx count) = Some Downloading.
Proof. reflexivity. Qed.

Lemma state_of_merge_progress count :
  state_of_message (merge_progress_message count) = Some Downloading.
Proof. reflexivity. Qed.

Lemma download_osm_data_downloading env cfg bbox job_dir :
  emits downloading_only
    (download_osm_data env cfg bbox job_dir (Some on_progress)).
Proof.
  unfold download_osm_data.
  apply emits_bind; [apply emits_lift|]. intros tiles.
  apply emits_bind.
  2:{ intros _. apply emits_silent_downloading. emits_auto. }
  assert (Hmulti :
    emits downloading_only
      (bind (os_makedirs (path_join job_dir "tiles")) (fun _ =>
       bind (for_collect (enumerate1 tiles) (fun '(idx, tile) =>
               bind (call_progress (Some on_progress)
                       (tile_progress_message idx (Z.of_nat (length tiles))))
                 (fun _ =>
               bind (_download_tile env cfg tile
                       (path_join (path_join job_dir "tiles")
                          (tile_file_name idx))) (fun _ =>
               bind (when (idx <? Z.of_nat (length tiles)) (time_sleep 1))
                 (fun _ =>
               ret (path_join (path_join job_dir "tiles")
                      (tile_file_name idx))))))) (fun tile_files =>
       bind (call_progress (Some on_progress)
               (merge_progress_message (Z.of_nat (length tiles)))) (fun _ =>
       bind (subprocess_run env
               (["osmium"; "merge"] ++ tile_files
                ++ ["-o"; path_join job_dir "map.osm"; "--overwrite"])%list
               300) (fun proc =>
       if negb (returncode proc =? 0)
       then raise (RuntimeError ("osmium merge failed: " ++ stderr proc))
       else ret tt)))))).
  { apply emits_bind; [apply emits_silent_downloading; emits_auto|]. intros _.
    apply emits_bind.
    - apply emits_for_collect. intros [idx tile].
      apply emits_bind;
        [apply on_progress_downloading, state_of_tile_progress|]. intros _.
      apply emits_bind;
        [apply emits_silent_downloading, download_tile_silent|]. intros _.
      apply emits_silent_downloading. emits_auto.
    - intros tile_files.
      apply emits_bind;
        [apply on_progress_downloading, state_of_merge_progress|]. intros _.
      apply emits_silent_downloading. emits_auto. }
  destruct tiles as [|tile [|tile' tiles']]; [exact Hmulti| |exact Hmulti].
  apply emits_bind; [apply on_progress_downloading; reflexivity|]. intros _.
  apply emits_silent_downloading, download_tile_silent.
Qed.

(** ** States entered along a trace *)






Lemma try_except_reraise {A} (m : M A) w :
  try_except m (fun _ => true) (fun e => raise e) w = m w.
Proof. unfold try_except. destruct (m w) as [[a|e] w']; reflexivity. Qed.



(** ** The errors of the delegated steps name their tool *)

Lemma convert_to_pbf_errors env osm_file job_dir w e w' :
  convert_to_pbf env osm_file job_dir w = (Raise e, w') ->
  (exists cmd, e = TimeoutExpired cmd 120)
  \/ (exists diagnostics, e = RuntimeError ("osmium convert failed: " ++ diagnostics)).
Proof.
  unfold convert_to_pbf. rewrite run_bind, run_subprocess.
  destruct (fst (run_command env _ 120 (fs w))) as [proc|].
  - destruct (negb (returncode proc =? 0)).
    + rewrite run_raise. intros [= <- _]. right. eauto.
    + rewrite run_ret. done.
  - intros [= <- _]. left. eauto.
Qed.

Lemma run_splitter_errors env cfg osm_file job_dir w e w' :
  run_splitter env cfg osm_file job_dir w = (Raise e, w') ->
  (exists cmd, e = TimeoutExpired cmd 300)
  \/ (exists diagnostics, e = RuntimeError ("Splitter failed: " ++ diagnostics)).
Proof.
  unfold run_splitter. rewrite run_bind, run_makedirs, run_bind, run_subprocess.
  cbn [fs].
  destruct (fst (run_command env _ 300 _)) as [proc|].
  - destruct (negb (returncode proc =? 0)).
    + rewrite run_raise. intros [= <- _]. right. eauto.
    + rewrite run_ret. done.
  - intros [= <- _]. left. eauto.
Qed.

Lemma run_mkgmap_errors env cfg job_dir w e w' :
  run_mkgmap env cfg job_dir w = (Raise e, w') ->
  e = FileNotFoundError "No PBF tiles found from splitter"
  \/ (exists cmd, e = TimeoutExpired cmd 300)
  \/ (exists diagnostics, e = RuntimeError ("mkgmap failed: " ++ diagnostics)).
Proof.
  unfold run_mkgmap. rewrite run_bind, run_glob.
  destruct (glob env _ (fs w)) as [|pbf pbf_files].
  { rewrite run_raise. intros [= <- _]. by left. }
  rewrite run_bind, run_isfile, run_bind, run_subprocess.
  destruct (fst (run_command env _ 300 _)) as [proc|].
  - destruct (negb (returncode proc =? 0)).
    + rewrite run_raise. intros [= <- _]. right. right. eauto.
    + rewrite run_ret. done.
  - intros [= <- _]. right. left. eauto.
Qed.

(** ** The pipeline *)


(** ** Two runs, step by step *)

Example pipeline_success :
  let '(st, w') :=
    run_task (scripted_env (fun _ => false)) default_config "j1" small_box
      empty_world in
  st = SUCCESS "gmapsupp.img"
  /\ progress_messages (trace w')
     = ["Downloading OSM data..."; "Downloading OSM data...";
        "Converting to PBF..."; "Splitting map tiles...";
        "Compiling Garmin IMG..."]
  /\ commands_run (trace w') = ["osmium sort"; "java -Xmx4g"; "java -Xmx4g"].
Proof. vm_compute. repeat split. Qed.

Example pipeline_failure_injected_in_splitter :
  let '(st, w') :=
    run_task (scripted_env (fun cmd => bool_decide ("/opt/splitter/splitter.jar" ∈ cmd)))
      default_config "j1" small_box empty_world in
  st = FAILURE (RuntimeError "Splitter failed: boom")
  /\ progress_messages (trace w')
     = ["Downloading OSM data..."; "Downloading OSM data...";
        "Converting to PBF..."; "Splitting map tiles..."]
  /\ commands_run (trace w') = ["osmium sort"; "java -Xmx4g"].
Proof. vm_compute. repeat split. Qed.

(* ================================================================== *)
(** * Further properties of the code *)
(* ================================================================== *)

(** ** Decimal numerals *)

Lemma all_digits_string_of_uint d : all_digits (NilEmpty.string_of_uint d) = true.
Proof. induction d; cbn [NilEmpty.string_of_uint all_digits]; try done. Qed.

Lemma int_of_digits_acc_uint d acc :
  int_of_digits_acc (Z.pos acc) (NilEmpty.string_of_uint d)
  = Z.pos (Pos.of_uint_acc d acc).
Proof.
  revert acc.
  induction d; intros acc;
    cbn [NilEmpty.string_of_uint int_of_digits_acc Pos.of_uint_acc];
    try done; rewrite <- IHd; f_equal; unfold digit_value;
    match goal with
    | |- context [Z.of_nat (nat_of_ascii ?c)] =>
        let v := eval vm_compute in (Z.of_nat (nat_of_ascii c)) in
        change (Z.of_nat (nat_of_ascii c)) with v
    end; lia.
Qed.

Lemma int_of_digits_uint d :
  int_of_digits (NilEmpty.string_of_uint d) = Z.of_N (Pos.of_uint d).
Proof.
  unfold int_of_digits.
  induction d;
    cbn [NilEmpty.string_of_uint int_of_digits_acc Pos.of_uint];
    try done; try apply (int_of_digits_acc_uint d).
Qed.

Lemma str_of_int_pos p :
  str_of_int (Z.pos p) = NilEmpty.string_of_uint (Pos.to_uint p).
Proof.
  unfold str_of_int. cbn [Z.to_int NilZero.string_of_int].
  unfold NilZero.string_of_uint.
  pose proof (Unsigned.to_uint_nonnil p) as H.
  destruct (Pos.to_uint p); done.
Qed.

(** [int(str(n)) == n] for a natural number, and [str(n)] is a
    non-empty string of digits. *)
Lemma int_of_str n :
  0 <= n ->
  int_of_digits (str_of_int n) = n
  /\ all_digits (str_of_int n) = true
  /\ str_of_int n <> "".
Proof.
  intros Hn. destruct n as [|p|p]; [done| |lia].
  rewrite str_of_int_pos. split; [|split].
  - rewrite int_of_digits_uint, DecimalPos.Unsigned.of_to. done.
  - apply all_digits_string_of_uint.
  - pose proof (Unsigned.to_uint_nonnil p) as H.
    destruct (Pos.to_uint p); done.
Qed.

(** ** The pattern of the Range header, read backwards *)

Lemma strip_prefix_inv p s r : strip_prefix p s = Some r -> s = p ++ r.
Proof.
  revert s. induction p as [|a p IH]; intros s H; cbn [strip_prefix] in H.
  - by injection H as ->.
  - destruct s as [|c s]; [done|].
    destruct (Ascii.eqb_spec a c) as [->|]; [|done].
    rewrite append_cons. f_equal. by apply IH.
Qed.

Lemma span_digits_inv s ds rest :
  span_digits s = (ds, rest) ->
  s = ds ++ rest /\ all_digits ds = true /\ no_digit_ahead rest.
Proof.
  revert ds rest. induction s as [|c s IH]; intros ds rest H;
    cbn [span_digits] in H.
  - by injection H as <- <-.
  - destruct (is_digit c) eqn:Hc.
    + destruct (span_digits s) as [ds' rest'].
      injection H as <- <-.
      destruct (IH ds' rest' eq_refl) as (-> & Hds & Hrest).
      rewrite append_cons. cbn [all_digits]. rewrite Hc. done.
    + injection H as <- <-. done.
Qed.

Lemma match_range_some h g1 g2 :
  match_range h = Some (g1, g2) ->
  exists rest,
    h = "bytes=" ++ g1 ++ "-" ++ g2 ++ rest
    /\ all_digits g1 = true /\ g1 <> ""
    /\ all_digits g2 = true /\ no_digit_ahead rest.
Proof.
  unfold match_range. intros H.
  destruct (strip_prefix "bytes=" h) as [after|] eqn:Hp; [|done].
  apply strip_prefix_inv in Hp as ->.
  destruct (span_digits after) as [group1 after1] eqn:H1.
  apply span_digits_inv in H1 as (-> & Hd1 & _).
  destruct (String.eqb_spec group1 "") as [|Hne]; [done|].
  destruct after1 as [|c after2]; [done|].
  destruct (Ascii.eqb_spec c "-"%char) as [->|Hc].
  2:{ destruct c as [[] [] [] [] [] [] [] []]; try done. }
  destruct (span_digits after2) as [group2 rest] eqn:H2.
  apply span_digits_inv in H2 as (-> & Hd2 & Hrest).
  injection H as <- <-. exists rest. done.
Qed.

(** X1. [_parse_range] answers 416 "Invalid Range header" exactly for
    the headers that do not start with [bytes=], at least one digit, a
    dash and a (possibly empty) run of digits: a suffix range such as
    [bytes=-500], another unit, or leading white space are all turned
    down, and every header that does start so gets past the pattern. *)
Theorem parse_range_invalid_iff (range_header : string) (file_size : Z) :
  _parse_range range_header file_size
  = Raise (HTTPException 416 "Invalid Range header" [])
  <-> ~ has_range_prefix range_header.
Proof.
  unfold _parse_range. split.
  - intros H (ds & de & rest & -> & Hds & Hne & Hde & Hrest).
    rewrite match_range_prefix in H by done.
    destruct (_ || _); done.
  - intros H. destruct (match_range range_header) as [[g1 g2]|] eqn:Hm; [|done].
    exfalso. apply H. apply match_range_some in Hm as (rest & ?).
    exists g1, g2, rest. done.
Qed.

(** X2. A range that the server can serve, written the way the server
    itself writes it in [Content-Range], is read back as the same pair:
    [bytes=S-E] gives (S, E) whenever [0 <= S <= E < file_size], and
    [bytes=S-] gives (S, file_size - 1). *)
Theorem parse_range_round_trip (start end_ file_size : Z) :
  0 <= start <= end_ -> end_ < file_size ->
  _parse_range ("bytes=" ++ str_of_int start ++ "-" ++ str_of_int end_) file_size
  = Ok (start, end_)
  /\ _parse_range ("bytes=" ++ str_of_int start ++ "-") file_size
     = Ok (start, file_size - 1).
Proof.
  intros Hse He.
  destruct (int_of_str start ltac:(lia)) as (Hs1 & Hs2 & Hs3).
  destruct (int_of_str end_ ltac:(lia)) as (He1 & He2 & He3).
  split.
  - destruct (parse_range_matched _ _ _ file_size
                (match_range_wf _ _ Hs2 Hs3 He2)) as (_ & Hok & _).
    rewrite Hs1 in Hok. destruct (String.eqb_spec (str_of_int end_) ""); [done|].
    rewrite He1 in Hok. apply Hok. lia.
  - destruct (parse_range_matched _ _ _ file_size
                (match_range_wf _ "" Hs2 Hs3 eq_refl)) as (_ & Hok & _).
    rewrite Hs1 in Hok. change (String.eqb "" "") with true in Hok.
    cbv iota in Hok. apply Hok. lia.
Qed.

Lemma parse_range_round_trip_witness :
  _parse_range ("bytes=" ++ str_of_int 900 ++ "-" ++ str_of_int 999) 1000
  = Ok (900, 999)
  /\ _parse_range ("bytes=" ++ str_of_int 900 ++ "-") 1000 = Ok (900, 999).
Proof. apply (parse_range_round_trip 900 999 1000); lia. Defined.

(** ** Tile files *)

Lemma all_digits_zero_pad_fuel fuel width s :
  all_digits s = true -> all_digits (zero_pad_fuel fuel width s) = true.
Proof.
  revert s. induction fuel as [|fuel IH]; intros s Hs; cbn [zero_pad_fuel]; [done|].
  destruct (_ <? _)%nat; [|done]. apply IH.
  rewrite append_cons, append_nil_l. cbn [all_digits]. by rewrite Hs.
Qed.

Lemma int_of_digits_zero_pad_fuel fuel width s :
  int_of_digits (zero_pad_fuel fuel width s) = int_of_digits s.
Proof.
  revert s. induction fuel as [|fuel IH]; intros s; cbn [zero_pad_fuel]; [done|].
  destruct (_ <? _)%nat; [|done]. rewrite IH.
  rewrite append_cons, append_nil_l. done.
Qed.

Lemma append_inj_l (a x y : string) : a ++ x = a ++ y -> x = y.
Proof.
  induction a as [|c a IH]; [done|].
  rewrite !append_cons. intros [= H]. by apply IH.
Qed.

(** X3. Two tiles of one job are never written to the same file: the
    path of the file of tile [i] determines [i]. *)
Theorem tile_paths_distinct (tile_dir : string) (i j : Z) :
  0 <= i -> 0 <= j ->
  path_join tile_dir (tile_file_name i) = path_join tile_dir (tile_file_name j)
  <-> i = j.
Proof.
  intros Hi Hj. split; [|by intros ->]. intros H.
  destruct (int_of_str i Hi) as (Hi1 & Hi2 & _).
  destruct (int_of_str j Hj) as (Hj1 & Hj2 & _).
  assert (Hname : tile_file_name i = tile_file_name j).
  { unfold path_join in H.
    change (starts_with "/" (tile_file_name i)) with false in H.
    change (starts_with "/" (tile_file_name j)) with false in H.
    cbv iota in H.
    destruct (_ || _); [by apply append_inj_l in H|].
    apply append_inj_l in H. by apply (append_inj_l "/") in H. }
  unfold tile_file_name in Hname. apply append_inj_l in Hname.
  assert (Hpad : zero_pad 3 (str_of_int i) = zero_pad 3 (str_of_int j)).
  { pose proof (span_digits_app (zero_pad 3 (str_of_int i)) ".osm"
                  (all_digits_zero_pad_fuel 3 3 _ Hi2) eq_refl) as Ei.
    pose proof (span_digits_app (zero_pad 3 (str_of_int j)) ".osm"
                  (all_digits_zero_pad_fuel 3 3 _ Hj2) eq_refl) as Ej.
    rewrite Hname in Ei. rewrite Ei in Ej. by injection Ej. }
  rewrite <- Hi1, <- Hj1.
  rewrite <- (int_of_digits_zero_pad_fuel 3 3 (str_of_int i)).
  rewrite <- (int_of_digits_zero_pad_fuel 3 3 (str_of_int j)).
  unfold zero_pad in Hpad. by rewrite Hpad.
Qed.

Lemma tile_paths_distinct_witness :
  path_join "/data/jobs/j1/tiles" (tile_file_name 7)
  = path_join "/data/jobs/j1/tiles" (tile_file_name 12)
  <-> 7 = 12.
Proof. apply tile_paths_distinct; lia. Defined.

(** ** The chunk generator, on any file *)

Lemma chunk_loop_nonempty fuel chunk_size (content : list byte) pos remaining :
  chunk_loop fuel chunk_size content pos remaining <> [] ->
  0 < remaining /\ (pos < length content)%nat.
Proof.
  destruct fuel as [|fuel]; cbn [chunk_loop]; [done|].
  destruct (Z.ltb_spec 0 remaining) as [Hpos|]; [|done].
  unfold file_read. intros H. split; [done|].
  destruct (Nat.lt_ge_cases pos (length content)) as [|Hge]; [done|].
  rewrite (drop_ge content pos Hge), take_nil in H. done.
Qed.

Lemma chunk_loop_full fuel chunk_size (content : list byte) pos remaining :
  0 < chunk_size -> remaining <= Z.of_nat fuel ->
  forall (i : nat) chunk,
    chunk_loop fuel chunk_size content pos remaining !! i = Some chunk ->
    is_Some (chunk_loop fuel chunk_size content pos remaining !! S i) ->
    Z.of_nat (length chunk) = chunk_size.
Proof.
  intros Hcs. revert pos remaining.
  induction fuel as [|fuel IH]; intros pos remaining Hfuel i chunk;
    cbn [chunk_loop]; [done|].
  destruct (Z.ltb_spec 0 remaining) as [Hpos|]; [|done].
  unfold file_read.
  destruct (take _ _) as [|b first] eqn:Hfirst; [done|].
  rewrite <- Hfirst.
  set (k := Z.to_nat (Z.min chunk_size remaining)) in *.
  assert (Hlen : length (take k (drop pos content))
                 = (k `min` (length content - pos))%nat)
    by (rewrite length_take, length_drop; done).
  assert (Hk : Z.of_nat k = Z.min chunk_size remaining) by (unfold k; lia).
  clearbody k.
  destruct i as [|i]; cbn [lookup list_lookup].
  - intros [= <-] [next Hnext].
    assert (Hrest : chunk_loop fuel chunk_size content
                      (pos + length (take k (drop pos content)))
                      (remaining - Z.of_nat (length (take k (drop pos content))))
                    <> []) by (intros E; rewrite E in Hnext; done).
    apply chunk_loop_nonempty in Hrest as [Hrem Hpos']. lia.
  - intros Hi Hnext.
    assert (length (take k (drop pos content)) <> 0)%nat
      by (rewrite Hfirst; done).
    assert (Hle : remaining - Z.of_nat (length (take k (drop pos content)))
                  <= Z.of_nat fuel) by lia.
    exact (IH _ _ Hle i chunk Hi Hnext).
Qed.

(** X4. Reading a file in chunks. If the file is missing the generator
    raises at once. Otherwise, for any [start >= 0] and any [end], the
    chunks are never empty, all but the last hold exactly
    [DOWNLOAD_CHUNK_SIZE] bytes, and together they are the bytes from
    [start] up to [end] or up to the end of the file, whichever comes
    first: nothing at all when [end < start] or when [start] is at or
    past the end of the file. *)
Theorem file_chunk_iterator_spec (path : string) (start end_ : Z) (w : World) :
  0 <= start ->
  match files (fs w) !! path with
  | None =>
      _file_chunk_iterator path start end_ w
      = (Raise (FileNotFoundError path), add_event w (EvOpenRead path))
  | Some content =>
      exists chunks,
        _file_chunk_iterator path start end_ w
        = (Ok chunks, add_event w (EvOpenRead path))
        /\ concat chunks
           = take (Z.to_nat (end_ - start + 1)) (drop (Z.to_nat start) content)
        /\ Forall (fun chunk => chunk <> []) chunks
        /\ (forall (i : nat) chunk,
              chunks !! i = Some chunk -> is_Some (chunks !! S i) ->
              Z.of_nat (length chunk) = DOWNLOAD_CHUNK_SIZE)
        /\ (end_ < start \/ Z.of_nat (length content) <= start -> chunks = [])
  end.
Proof.
  intros Hstart. unfold _file_chunk_iterator.
  rewrite run_bind, run_open_rb.
  destruct (files (fs w) !! path) as [content|]; [|done].
  rewrite run_ret. eexists. split; [reflexivity|].
  split; [apply file_chunks_concat; done|].
  split; [|split].
  - eapply Forall_impl; [apply chunk_loop_sizes|].
    intros chunk [H _] ->. cbn in H. lia.
  - unfold file_chunks. apply chunk_loop_full; [done|lia].
  - intros H.
    destruct (file_chunks DOWNLOAD_CHUNK_SIZE content start end_) eqn:E; [done|].
    exfalso.
    assert (Hne : file_chunks DOWNLOAD_CHUNK_SIZE content start end_ <> [])
      by (rewrite E; done).
    apply chunk_loop_nonempty in Hne as [H1 H2]. lia.
Qed.

Lemma file_chunk_iterator_spec_witness :
  exists chunks,
    _file_chunk_iterator "/f" 1 100
      {| fs := {| files := {[ "/f" := [x00; x01; x02] ]}; dirs := ∅ |};
         trace := [] |}
    = (Ok chunks,
       add_event {| fs := {| files := {[ "/f" := [x00; x01; x02] ]};
                             dirs := ∅ |};
                    trace := [] |} (EvOpenRead "/f"))
    /\ concat chunks = [x01; x02].
Proof.
  pose proof (file_chunk_iterator_spec "/f" 1 100
    {| fs := {| files := {[ "/f" := [x00; x01; x02] ]}; dirs := ∅ |};
       trace := [] |} ltac:(lia)) as H.
  cbn [fs files] in H.
  change (({[ "/f" := [x00; x01; x02] ]} : gmap string (list byte)) !! "/f")
    with (Some [x00; x01; x02]) in H.
  destruct H as (chunks & H1 & H2 & _).
  exists chunks. split; [exact H1|exact H2].
Defined.

(** ** The errors of the download route *)




(** ** [_compute_tiles] on every box *)

(** Past the fast path the function returns a grid with enough cells,
    whichever way up the box is. *)
Lemma compute_tiles_grid_any (b : BBox) (T : Q) :
  (0 < T)%Q -> (T < signed_area b)%Q ->
  exists n_lat n_lon,
    1 <= n_lat /\ 1 <= n_lon
    /\ Qceiling (signed_area b / T) <= n_lat * n_lon
    /\ _compute_tiles b T
       = Ok (grid_tiles b n_lat n_lon
               ((north b - south b) / inject_Z n_lat)
               ((east b - west b) / inject_Z n_lon)).
Proof.
  intros HT Harea.
  destruct (Qlt_le_dec (south b) (north b)) as [Hns|Hsn].
  { by apply compute_tiles_grid. }
  unfold signed_area in *. unfold _compute_tiles.
  set (lat_span := (north b - south b)%Q) in *.
  set (lon_span := (east b - west b)%Q) in *.
  assert (Hlat : (lat_span <= 0)%Q) by (unfold lat_span; lra).
  destruct (Qle_bool (lat_span * lon_span) T) eqn:E.
  { apply Qle_bool_iff in E. lra. }
  rewrite py_div_ok by lra. cbn [rbind].
  set (num := Qceiling (lat_span * lon_span / T)).
  assert (Hnum : 1 <= num).
  { assert (1 < lat_span * lon_span / T)%Q by (apply Qlt_shift_div_l; lra).
    pose proof (Qle_ceiling (lat_span * lon_span / T)) as Hc. fold num in Hc.
    assert (inject_Z 0 < inject_Z num)%Q as Hlt
      by (change (inject_Z 0) with 0%Q; lra).
    rewrite <- Zlt_Qlt in Hlt. lia. }
  assert (Hnumq : (0 < inject_Z num)%Q) by (apply inj_pos; lia).
  apply Qltb_ge in Hlat as Hb. rewrite Hb. clear Hb. cbn [rbind].
  rewrite py_div_ok by lra. cbn [rbind].
  destruct (round_sqrt_ok (inject_Z num / 1)) as [r1 ->].
  { apply Qle_shift_div_l; lra. }
  cbn [rbind].
  destruct (round_sqrt_ok (inject_Z num * 1)) as [r2 ->]; [lra|].
  cbn [rbind].
  pose proof (grow_grid_spec (Z.to_nat num) num (Z.max 1 r1) (Z.max 1 r2)) as Hg.
  destruct (grow_grid (Z.to_nat num) num (Z.max 1 r1) (Z.max 1 r2))
    as [n_lat n_lon].
  destruct Hg as (Hg1 & Hg2 & Hg3); [lia|lia|nia|].
  assert (1 <= n_lat) by lia. assert (1 <= n_lon) by lia.
  pose proof (inj_pos n_lat ltac:(lia)). pose proof (inj_pos n_lon ltac:(lia)).
  rewrite !py_div_ok by lra. cbn [rbind].
  exists n_lat, n_lon. repeat split; try lia.
Qed.





(** ** Tiles do not overlap *)

(** The cells of the grid that [_compute_tiles] returns for a box that
    is the right way up, by index. *)
Lemma compute_tiles_cells (b : BBox) (T : Q) :
  (0 < T)%Q -> (south b < north b)%Q -> (T < signed_area b)%Q ->
  exists n_lat n_lon h w tiles,
    _compute_tiles b T = Ok tiles
    /\ 1 <= n_lat /\ 1 <= n_lon /\ (0 < h)%Q /\ (0 < w)%Q
    /\ forall (k : nat) t,
         tiles !! k = Some t ->
         exists i j,
           0 <= i < n_lat /\ 0 <= j < n_lon /\ Z.of_nat k = i * n_lon + j
           /\ (south t == south b + inject_Z i * h
               /\ north t == south b + (inject_Z i + 1) * h
               /\ west t == west b + inject_Z j * w
               /\ east t == west b + (inject_Z j + 1) * w)%Q.
Proof.
  intros HT Hns Harea.
  assert (Hwe : (west b < east b)%Q) by (unfold signed_area in Harea; nra).
  destruct (compute_tiles_grid b T HT Hns Harea)
    as (n_lat & n_lon & Hlat & Hlon & _ & ->).
  exists n_lat, n_lon, ((north b - south b) / inject_Z n_lat)%Q,
    ((east b - west b) / inject_Z n_lon)%Q. eexists.
  split; [reflexivity|]. split; [done|]. split; [done|].
  split; [apply step_pos; [done|lra]|]. split; [apply step_pos; [done|lra]|].
  intros k t Hk.
  apply grid_lookup in Hk as (i & j & Hi & Hj & Hk & ->); try lia.
  exists i, j. repeat split; try lia;
    apply (make_tile_edges b n_lat n_lon Hns Hwe Hlat Hlon i j Hi Hj).
Qed.

Lemma scale_step_le (i i' : Z) (h : Q) :
  (0 < h)%Q -> i < i' -> ((inject_Z i + 1) * h <= inject_Z i' * h)%Q.
Proof.
  intros Hh Hlt. apply Qmult_le_compat_r; [|lra].
  rewrite <- inject_Z_succ, <- Zle_Qle. lia.
Qed.

(** X8. For a box that is the right way up, two different tiles of the
    result share no interior point: tiles meet on their edges only, so
    no part of the area is asked for twice. *)
Theorem compute_tiles_disjoint (b : BBox) (T : Q) :
  (0 < T)%Q -> (south b < north b)%Q -> (T < signed_area b)%Q ->
  exists tiles,
    _compute_tiles b T = Ok tiles
    /\ forall (k k' : nat) t t' lat lon,
         k <> k' -> tiles !! k = Some t -> tiles !! k' = Some t' ->
         ~ (interior lat lon t /\ interior lat lon t').
Proof.
  intros HT Hns Harea.
  destruct (compute_tiles_cells b T HT Hns Harea)
    as (n_lat & n_lon & h & w & tiles & -> & Hlat & Hlon & Hh & Hw & Hcells).
  exists tiles. split; [done|].
  intros k k' t t' lat lon Hne Hk Hk' [Hin Hin'].
  apply Hcells in Hk as (i & j & Hi & Hj & Hkk & Hs & Hn & Hw1 & He).
  apply Hcells in Hk' as (i' & j' & Hi' & Hj' & Hkk' & Hs' & Hn' & Hw1' & He').
  unfold interior in *.
  destruct (Z.lt_trichotomy i i') as [Hlt|[Heq|Hgt]].
  - pose proof (scale_step_le i i' h Hh Hlt). lra.
  - subst i'. assert (j <> j') by lia.
    destruct (Z.lt_trichotomy j j') as [Hlt|[Heq|Hgt]]; [|done|].
    + pose proof (scale_step_le j j' w Hw Hlt). lra.
    + pose proof (scale_step_le j' j w Hw Hgt). lra.
  - pose proof (scale_step_le i' i h Hh Hgt). lra.
Qed.

Lemma compute_tiles_disjoint_witness :
  exists tiles,
    _compute_tiles (mkBBox 44 6 46 8) (1 # 4) = Ok tiles
    /\ forall (k k' : nat) t t' lat lon,
         k <> k' -> tiles !! k = Some t -> tiles !! k' = Some t' ->
         ~ (interior lat lon t /\ interior lat lon t').
Proof. apply compute_tiles_disjoint; reflexivity. Defined.

(** ** The loop that grows the grid, again *)

Lemma grow_grid_shape fuel num a b :
  let r := grow_grid fuel num a b in
  a <= fst r /\ b <= snd r
  /\ Z.abs (fst r - snd r) <= Z.max (Z.abs (a - b)) 1
  /\ (r = (a, b) \/ (fst r - 1) * snd r < num \/ fst r * (snd r - 1) < num)
  /\ (num <= a * b -> r = (a, b)).
Proof.
  revert a b. induction fuel as [|fuel IH]; intros a b; cbn [grow_grid].
  { cbn. repeat split; try lia; auto. }
  destruct (Z.ltb_spec (a * b) num) as [Hlt|Hge].
  2:{ cbn. repeat split; try lia; auto. }
  destruct (Z.leb_spec a b) as [Hle|Hgt].
  - specialize (IH (a + 1) b). cbv zeta in *.
    destruct (grow_grid fuel num (a + 1) b) as [a' b']. cbn [fst snd] in *.
    destruct IH as (H1 & H2 & H3 & H4 & H5).
    repeat split; try lia.
    destruct H4 as [[= -> ->]|H4]; [|by right].
    right. left. replace (a + 1 - 1) with a by lia. done.
  - specialize (IH a (b + 1)). cbv zeta in *.
    destruct (grow_grid fuel num a (b + 1)) as [a' b']. cbn [fst snd] in *.
    destruct IH as (H1 & H2 & H3 & H4 & H5).
    repeat split; try lia.
    destruct H4 as [[= -> ->]|H4]; [|by right].
    right. right. replace (b + 1 - 1) with b by lia. done.
Qed.

(** X9. The loop that tops up the grid. Started from a grid of at least
    one row and one column, it ends with at least [num_tiles] cells,
    never takes a row or a column away, leaves a grid that is already
    large enough alone, stops as soon as there are enough cells (the
    grid without the row or column added last was too small), and, by
    always growing the smaller side, never makes the grid more lopsided
    than it was, up to one. *)
Theorem grow_grid_balanced (num_tiles n_lat n_lon : Z) :
  1 <= n_lat -> 1 <= n_lon ->
  let r := grow_grid (Z.to_nat num_tiles) num_tiles n_lat n_lon in
  num_tiles <= fst r * snd r
  /\ n_lat <= fst r /\ n_lon <= snd r
  /\ (num_tiles <= n_lat * n_lon -> r = (n_lat, n_lon))
  /\ (r = (n_lat, n_lon)
      \/ (fst r - 1) * snd r < num_tiles \/ fst r * (snd r - 1) < num_tiles)
  /\ Z.abs (fst r - snd r) <= Z.max (Z.abs (n_lat - n_lon)) 1.
Proof.
  intros Ha Hb r.
  pose proof (grow_grid_spec (Z.to_nat num_tiles) num_tiles n_lat n_lon Ha Hb) as H.
  pose proof (grow_grid_shape (Z.to_nat num_tiles) num_tiles n_lat n_lon) as H'.
  cbv zeta in H'. fold r in H'. fold r in H.
  destruct r as [a' b']. cbn [fst snd] in *.
  destruct H as (_ & _ & H); [nia|].
  destruct H' as (H1 & H2 & H3 & H4 & H5). repeat split; try done.
Qed.

Lemma grow_grid_balanced_witness :
  let r := grow_grid (Z.to_nat 12) 12 1 3 in
  12 <= fst r * snd r
  /\ 1 <= fst r /\ 3 <= snd r
  /\ (12 <= 1 * 3 -> r = (1, 3))
  /\ (r = (1, 3) \/ (fst r - 1) * snd r < 12 \/ fst r * (snd r - 1) < 12)
  /\ Z.abs (fst r - snd r) <= Z.max (Z.abs (1 - 3)) 1.
Proof. apply (grow_grid_balanced 12 1 3); lia. Defined.

(** ** A box inverted on both axes *)



Import Api.

(** ** Coordinates *)

Lemma validate_lat_ok v r : Schemas.validate_lat v = Ok r <-> ((-90 <= v <= 90)%Q /\ r = v).
Proof.
  unfold Schemas.validate_lat.
  destruct (Qle_bool (-90) v) eqn:E1; destruct (Qle_bool v 90) eqn:E2; cbn [andb];
    try (apply Qle_bool_iff in E1); try (apply Qle_bool_iff in E2); split;
    try (intros [= <-]; done); try (intros [[H1 H2] ->]; try done).
  - rewrite <- Qle_bool_iff in H2. congruence.
  - rewrite <- Qle_bool_iff in H1. congruence.
  - rewrite <- Qle_bool_iff in H1. congruence.
Qed.

Lemma validate_lon_ok v r : Schemas.validate_lon v = Ok r <-> ((-180 <= v <= 180)%Q /\ r = v).
Proof.
  unfold Schemas.validate_lon.
  destruct (Qle_bool (-180) v) eqn:E1; destruct (Qle_bool v 180) eqn:E2; cbn [andb];
    try (apply Qle_bool_iff in E1); try (apply Qle_bool_iff in E2); split;
    try (intros [= <-]; done); try (intros [[H1 H2] ->]; try done).
  - rewrite <- Qle_bool_iff in H2. congruence.
  - rewrite <- Qle_bool_iff in H1. congruence.
  - rewrite <- Qle_bool_iff in H1. congruence.
Qed.

Lemma rbind_ok_inv {A B} (r : result A) (k : A -> result B) b :
  rbind r k = Ok b <-> exists a, r = Ok a /\ k a = Ok b.
Proof.
  destruct r as [a|e]; cbn [rbind]; split.
  - eauto.
  - intros (a' & [= <-] & H). done.
  - done.
  - intros (a' & [=] & _).
Qed.

(** X11. A bounding box can be built exactly when both latitudes lie in
    [-90, 90] and both longitudes in [-180, 180], bounds included; the
    box built then holds the four numbers unchanged. How south compares
    to north, or west to east, plays no part. *)
Theorem bbox_new_bounds (s w n e : Q) :
  ((exists b, Schemas.BBox_new s w n e = Ok b)
   <-> ((-90 <= s <= 90) /\ (-180 <= w <= 180)
        /\ (-90 <= n <= 90) /\ (-180 <= e <= 180))%Q)
  /\ (forall b, Schemas.BBox_new s w n e = Ok b -> b = mkBBox s w n e).
Proof.
  assert (H : forall b, Schemas.BBox_new s w n e = Ok b
              <-> (((-90 <= s <= 90) /\ (-180 <= w <= 180)
                    /\ (-90 <= n <= 90) /\ (-180 <= e <= 180))%Q
                   /\ b = mkBBox s w n e)).
  { intros b. unfold Schemas.BBox_new. rewrite rbind_ok_inv. split.
    - intros (s' & Hs & H). apply validate_lat_ok in Hs as [Hs ->].
      apply rbind_ok_inv in H as (w' & Hw & H). apply validate_lon_ok in Hw as [Hw ->].
      apply rbind_ok_inv in H as (n' & Hn & H). apply validate_lat_ok in Hn as [Hn ->].
      apply rbind_ok_inv in H as (e' & He & H). apply validate_lon_ok in He as [He ->].
      injection H as <-. done.
    - intros ((Hs & Hw & Hn & He) & ->).
      exists s. split; [by apply validate_lat_ok|].
      apply rbind_ok_inv. exists w. split; [by apply validate_lon_ok|].
      apply rbind_ok_inv. exists n. split; [by apply validate_lat_ok|].
      apply rbind_ok_inv. exists e. split; [by apply validate_lon_ok|]. done. }
  split.
  - split.
    + intros [b Hb]. apply H in Hb. tauto.
    + intros Hr. eexists. apply H. done.
  - intros b Hb. apply H in Hb. tauto.
Qed.

(** ** Areas *)

Lemma Qltb_comp a a' b b' : (a == a')%Q -> (b == b')%Q -> Qltb a b = Qltb a' b'.
Proof.
  intros Ha Hb. destruct (Qltb a' b') eqn:E.
  - apply Qltb_lt. apply Qltb_lt in E. lra.
  - apply Qltb_ge. apply Qltb_ge in E. lra.
Qed.

Lemma py_round_comp x y : (x == y)%Q -> py_round x = py_round y.
Proof.
  intros H. unfold py_round.
  assert (Hf : Qfloor x = Qfloor y) by (by apply Qfloor_comp).
  rewrite Hf.
  rewrite (Qltb_comp (x - inject_Z (Qfloor y)) (y - inject_Z (Qfloor y)) (1 # 2) (1 # 2))
    by lra.
  rewrite (Qltb_comp (1 # 2) (1 # 2) (x - inject_Z (Qfloor y)) (y - inject_Z (Qfloor y)))
    by lra.
  done.
Qed.

Lemma format_4f_comp x y : (x == y)%Q -> format_4f x = format_4f y.
Proof.
  intros H. unfold format_4f.
  rewrite (py_round_comp (Qabs x * 10000) (Qabs y * 10000)) by (rewrite H; lra).
  rewrite (Qltb_comp x y 0 0) by lra. done.
Qed.

Lemma validate_area_comp env cfg b b' :
  (Schemas.area_deg2 b == Schemas.area_deg2 b')%Q ->
  Schemas.validate_area env cfg b = Schemas.validate_area env cfg b'.
Proof.
  intros H. unfold Schemas.validate_area, Schemas.too_large_message.
  rewrite (Qltb_comp _ _ _ _ (Qeq_refl (MAX_BBOX_AREA_DEG2 cfg)) H).
  rewrite (Qltb_comp _ _ _ _ H (Qeq_refl (1 # 1000000))).
  rewrite (format_4f_comp _ _ H). done.
Qed.

Lemma Qabs_swap a b : (Qabs (a - b) == Qabs (b - a))%Q.
Proof.
  rewrite <- (Qabs_opp (b - a)). apply Qabs_wd. lra.
Qed.

(** X12. The check of the area cannot tell an inverted box from a
    proper one: swapping south with north, or west with east, leaves the
    area the same number and the outcome of [validate_area] the same,
    down to the text of the error. So a box with south above north is
    accepted whenever its mirror image is. *)
Theorem validate_area_orientation_blind (env : Env) (cfg : Config) (b : BBox) :
  (Schemas.area_deg2 (swap_ns b) == Schemas.area_deg2 b)%Q
  /\ (Schemas.area_deg2 (swap_ew b) == Schemas.area_deg2 b)%Q
  /\ Schemas.validate_area env cfg (swap_ns b) = Schemas.validate_area env cfg b
  /\ Schemas.validate_area env cfg (swap_ew b) = Schemas.validate_area env cfg b
  /\ Schemas.validate_area env cfg (swap_ns (swap_ew b))
     = Schemas.validate_area env cfg b.
Proof.
  assert (Hns : (Schemas.area_deg2 (swap_ns b) == Schemas.area_deg2 b)%Q).
  { unfold Schemas.area_deg2, swap_ns. cbn [north south east west].
    rewrite (Qabs_swap (south b) (north b)). reflexivity. }
  assert (Hew : forall c, (Schemas.area_deg2 (swap_ew c) == Schemas.area_deg2 c)%Q).
  { intros c. unfold Schemas.area_deg2, swap_ew. cbn [north south east west].
    rewrite (Qabs_swap (west c) (east c)). reflexivity. }
  repeat split.
  - exact Hns.
  - apply Hew.
  - by apply validate_area_comp.
  - apply validate_area_comp, Hew.
  - apply validate_area_comp.
    unfold Schemas.area_deg2, swap_ns, swap_ew. cbn [north south east west].
    rewrite (Qabs_swap (south b) (north b)), (Qabs_swap (west b) (east b)).
    reflexivity.
Qed.

(** ** Starting a job *)



(** ** Reporting on a job *)

(** X14. [get_status] never raises and never changes a file. It looks
    at the file system only when the task state is SUCCESS: it then
    asks whether the artifact of the job exists and, only if so, for
    its size, and reports "completed" with the file name gmapsupp.img
    and that size, or no size when the artifact is missing. A file name
    is reported in no other state, an error text only for FAILURE (the
    text of the task's result), a progress text only for PROGRESS (the
    "step" of the meta data, empty when there is none), and any other
    state is reported under its own name in lower case, with nothing
    else. *)
Theorem get_status_spec (cfg : Config) (job : string) (r : AsyncResult) (w : World) :
  let img := artifact_path cfg job in
  let out := get_status cfg job r w in
  exists js,
    fst out = Ok js
    /\ fs (snd out) = fs w
    /\ job_id js = job
    /\ (state r = "SUCCESS" ->
        status js = "completed" /\ filename js = Some "gmapsupp.img"
        /\ progress js = None /\ error js = None
        /\ file_size js
           = option_map (fun c => Z.of_nat (length c)) (files (fs w) !! img)
        /\ trace (snd out)
           = (trace w ++ EvIsFile img
                :: match files (fs w) !! img with
                   | Some _ => [EvGetSize img]
                   | None => []
                   end)%list)
    /\ (state r <> "SUCCESS" ->
        snd out = w /\ filename js = None /\ file_size js = None)
    /\ (state r = "PENDING" ->
        js = mkJobStatus job "queued" None None None None)
    /\ (state r = "PROGRESS" ->
        js = mkJobStatus job "processing"
               (Some (default "" (info_meta r !! "step"))) None None None)
    /\ (state r = "FAILURE" ->
        js = mkJobStatus job "failed" None (Some (info_str r)) None None)
    /\ (state r <> "PENDING" -> state r <> "PROGRESS" ->
        state r <> "SUCCESS" -> state r <> "FAILURE" ->
        js = mkJobStatus job (str_lower (state r)) None None None None).
Proof.
  intros img out. subst out img. unfold get_status, artifact_path, job_dir_of.
  set (img := path_join (path_join (DATA_DIR cfg) job) "gmapsupp.img").
  destruct (String.eqb_spec (state r) "PENDING") as [E1|E1].
  { rewrite run_ret. eexists. split; [done|]. rewrite E1.
    repeat split; try done. }
  destruct (String.eqb_spec (state r) "PROGRESS") as [E2|E2].
  { rewrite run_ret. eexists. split; [done|]. rewrite E2.
    repeat split; try done. }
  destruct (String.eqb_spec (state r) "SUCCESS") as [E3|E3].
  { rewrite run_bind, run_isfile.
    destruct (files (fs w) !! img) as [c|] eqn:Ef.
    - rewrite bool_decide_eq_true_2 by eauto.
      rewrite !run_bind, run_getsize, fs_add_event, Ef, !run_ret.
      eexists. split; [done|]. rewrite E3.
      repeat split; try done.
      cbn [snd]. rewrite !trace_add_event, <- app_assoc. done.
    - rewrite bool_decide_eq_false_2 by (intros [? ?]; done).
      rewrite !run_bind, !run_ret.
      eexists. split; [done|]. rewrite E3.
      repeat split; try done. }
  destruct (String.eqb_spec (state r) "FAILURE") as [E4|E4].
  { rewrite run_ret. eexists. split; [done|]. rewrite E4.
    repeat split; try done. }
  rewrite run_ret. eexists. split; [done|].
  repeat split; try done.
Qed.

Lemma get_status_spec_witness :
  exists js,
    fst (get_status default_config "j1" (mkAsyncResult "SUCCESS" ∅ "") three_byte_world)
    = Ok js
    /\ file_size js = Some 3.
Proof.
  destruct (get_status_spec default_config "j1" (mkAsyncResult "SUCCESS" ∅ "")
              three_byte_world) as (js & H1 & _ & _ & H2 & _).
  exists js. split; [exact H1|].
  destruct (H2 eq_refl) as (_ & _ & _ & _ & H3 & _).
  rewrite H3. vm_compute. reflexivity.
Defined.

(** ** The download of a whole request *)

Lemma bind_ok_inv {A B} (m : M A) (k : A -> M B) w b w' :
  bind m k w = (Ok b, w') ->
  exists a w1, m w = (Ok a, w1) /\ k a w1 = (Ok b, w').
Proof.
  rewrite run_bind. destruct (m w) as [[a|e] w1]; [eauto|done].
Qed.

Lemma compute_tiles_nonempty (b : BBox) (T : Q) :
  (0 < T)%Q -> exists t ts, _compute_tiles b T = Ok (t :: ts).
Proof.
  intros HT.
  destruct (Qlt_le_dec T (signed_area b)) as [Hbig|Hsmall].
  - destruct (compute_tiles_grid_any b T HT Hbig)
      as (n_lat & n_lon & Hlat & Hlon & Hnum & ->).
    pose proof (grid_length b n_lat n_lon
                  ((north b - south b) / inject_Z n_lat)
                  ((east b - west b) / inject_Z n_lon) Hlat Hlon) as Hlen.
    destruct (grid_tiles _ _ _ _ _) as [|t ts]; [cbn in Hlen; nia|eauto].
  - exists b, []. by apply compute_tiles_fast_path.
Qed.

Lemma download_tile_down env cfg tile path w :
  server_down env ->
  exists msg,
    _download_tile env cfg tile path w
    = (Raise (HTTPError msg),
       {| fs := fs w;
          trace := (trace w ++ [EvPost (OVERPASS_URL cfg) (tile_query env tile);
                                EvSleep 5;
                                EvPost (OVERPASS_URL cfg) (tile_query env tile)])%list |}).
Proof.
  intros Hdown. unfold _download_tile. fold (tile_query env tile).
  change (py_range 2) with [0; 1]. cbn [attempt_loop].
  rewrite run_fetch_once.
  destruct (Hdown (trace w) (OVERPASS_URL cfg) (tile_query env tile)) as [m1 ->].
  cbn [is_httpx_error]. change (0 =? 0) with true. cbv iota.
  rewrite run_bind, run_sleep, run_fetch_once.
  rewrite !trace_add_event.
  destruct (Hdown ((trace w ++ [EvPost (OVERPASS_URL cfg) (tile_query env tile)])
                     ++ [EvSleep 5])%list
              (OVERPASS_URL cfg) (tile_query env tile)) as [m2 ->].
  cbn [is_httpx_error]. change (1 =? 0) with false. cbv iota.
  exists m2. unfold add_event. cbn [fs trace]. rewrite <- !app_assoc. done.
Qed.


Lemma run_call_progress report msg w :
  call_progress (callback report) msg w
  = (Ok tt, {| fs := fs w; trace := (trace w ++ reported report msg)%list |}).
Proof.
  destruct report; cbn [callback call_progress reported].
  - unfold on_progress. rewrite run_update_state. done.
  - rewrite run_ret, app_nil_r. by destruct w.
Qed.

Lemma enumerate1_cons {A} (x : A) (l : list A) :
  enumerate1 (x :: l) = (1, x) :: zip (seqZ 2 (Z.of_nat (length l))) l.
Proof.
  unfold enumerate1. cbn [length].
  rewrite seqZ_cons by lia.
  cbn [zip zip_with]. do 3 f_equal. lia.
Qed.

Lemma housekeeping_reported report msg : Forall housekeeping (reported report msg).
Proof. destruct report; repeat constructor. Qed.

Lemma download_osm_data_ok_path env cfg bbox job_dir progress_callback w w' path :
  download_osm_data env cfg bbox job_dir progress_callback w = (Ok path, w') ->
  path = path_join job_dir "map.osm".
Proof.
  unfold download_osm_data. intros H.
  apply bind_ok_inv in H as (tiles & w1 & _ & H).
  apply bind_ok_inv in H as ([] & w2 & _ & H).
  apply bind_ok_inv in H as (size & w3 & _ & H).
  destruct (size <? 100); [by rewrite run_raise in H|].
  rewrite run_ret in H. by injection H as <- _.
Qed.

(** X15. When [download_osm_data] returns, the value is the path
    [map.osm] inside the job directory, that file exists and holds at
    least 100 bytes, and asking for its size was the last thing the
    function did; whatever the callback does. A smaller file, or none,
    never gets past it. *)
Theorem download_osm_data_returns (env : Env) (cfg : Config) (bbox : BBox)
    (job_dir : string) (progress_callback : option (string -> M unit))
    (w w' : World) (path : string) :
  download_osm_data env cfg bbox job_dir progress_callback w = (Ok path, w') ->
  path = path_join job_dir "map.osm"
  /\ (exists content,
        files (fs w') !! path = Some content
        /\ (100 <= length content)%nat)
  /\ exists earlier, trace w' = (earlier ++ [EvGetSize path])%list.
Proof.
  unfold download_osm_data. intros H.
  apply bind_ok_inv in H as (tiles & w1 & _ & H).
  apply bind_ok_inv in H as ([] & w2 & _ & H).
  apply bind_ok_inv in H as (size & w3 & Hsize & H).
  rewrite run_getsize in Hsize.
  destruct (files (fs w2) !! path_join job_dir "map.osm") as [content|] eqn:Ef;
    [|done].
  injection Hsize as <- <-.
  destruct (Z.of_nat (length content) <? 100) eqn:E.
  { rewrite run_raise in H. done. }
  rewrite run_ret in H. injection H as <- <-.
  split; [done|]. split.
  - exists content. rewrite fs_add_event. split; [done|].
    apply Z.ltb_ge in E. lia.
  - exists (trace w2). by rewrite trace_add_event.
Qed.

Lemma download_osm_data_returns_witness :
  exists w',
    download_osm_data (scripted_env (fun _ => false)) default_config small_box
      "/data/jobs/j1" None empty_world
    = (Ok "/data/jobs/j1/map.osm", w')
    /\ "/data/jobs/j1/map.osm" = path_join "/data/jobs/j1" "map.osm"
    /\ (exists content,
          files (fs w') !! "/data/jobs/j1/map.osm" = Some content
          /\ (100 <= length content)%nat).
Proof.
  eexists. split; [vm_compute; reflexivity|].
  pose proof (download_osm_data_returns (scripted_env (fun _ => false))
                default_config small_box "/data/jobs/j1" None empty_world _ _
                ltac:(vm_compute; reflexivity)) as (H1 & H2 & _).
  split; [exact H1|exact H2].
Defined.

(** X16. With the server down, [download_osm_data] gives up on the
    first tile, however many tiles the box was cut into: it posts the
    query of the first tile, sleeps 5 seconds, posts it again and
    raises the error of the second request. Before these two requests
    it only creates the tile directory and reports progress; it writes
    no file, runs no command and never asks for a second tile. *)
Theorem download_osm_data_server_down (env : Env) (cfg : Config) (bbox : BBox)
    (job_dir : string) (report : bool) (w : World) :
  (0 < OVERPASS_TILE_DEG2 cfg)%Q ->
  server_down env ->
  let out := download_osm_data env cfg bbox job_dir (callback report) w in
  exists msg before first rest,
    _compute_tiles bbox (OVERPASS_TILE_DEG2 cfg) = Ok (first :: rest)
    /\ fst out = Raise (HTTPError msg)
    /\ trace (snd out)
       = (trace w ++ before
            ++ [EvPost (OVERPASS_URL cfg) (tile_query env first);
                EvSleep 5;
                EvPost (OVERPASS_URL cfg) (tile_query env first)])%list
    /\ Forall housekeeping before
    /\ files (fs (snd out)) = files (fs w).
Proof.
  intros HT Hdown out. subst out.
  destruct (compute_tiles_nonempty bbox _ HT) as (t & ts & Htiles).
  unfold download_osm_data. rewrite run_bind, Htiles, run_lift.
  destruct ts as [|t2 ts].
  - rewrite !run_bind, run_call_progress.
    set (w1 := {| fs := fs w; trace := _ |}).
    destruct (download_tile_down env cfg t (path_join job_dir "map.osm") w1 Hdown)
      as [msg ->].
    exists msg, (reported report "Downloading OSM data..."), t, [].
    subst w1. cbn [fst snd fs trace]. split; [done|]. split; [done|].
    split; [by rewrite <- app_assoc|]. split; [apply housekeeping_reported|done].
  - rewrite !run_bind, run_makedirs.
    rewrite enumerate1_cons. cbn [for_collect].
    rewrite !run_bind, run_call_progress. cbn [fs trace].
    set (w1 := {| fs := _; trace := _ |}). rewrite !run_bind.
    destruct (download_tile_down env cfg t
                (path_join (path_join job_dir "tiles") (tile_file_name 1)) w1 Hdown)
      as [msg ->].
    exists msg,
      (EvMakedirs (path_join job_dir "tiles")
         :: reported report (tile_progress_message 1
                               (Z.of_nat (length (t :: t2 :: ts))))), t, (t2 :: ts).
    subst w1. cbn [fst snd fs trace files]. split; [done|]. split; [done|].
    split; [by rewrite <- !app_assoc|]. split; [|done].
    constructor; [done|apply housekeeping_reported].
Qed.

Lemma dead_server_down : server_down dead_server_env.
Proof. intros tr url data. exists "connection refused". reflexivity. Defined.

Lemma download_osm_data_server_down_witness :
  (0 < OVERPASS_TILE_DEG2 default_config)%Q
  /\ server_down dead_server_env
  /\ exists msg,
       fst (download_osm_data dead_server_env default_config four_tile_box
              "/data/jobs/j1" (callback true) empty_world)
       = Raise (HTTPError msg)
       /\ count_posts
            (trace (snd (download_osm_data dead_server_env default_config
                           four_tile_box "/data/jobs/j1" (callback true)
                           empty_world))) = 2%nat.
Proof.
  assert (HT : (0 < OVERPASS_TILE_DEG2 default_config)%Q) by reflexivity.
  split; [exact HT|]. split; [exact dead_server_down|].
  destruct (download_osm_data_server_down dead_server_env default_config
              four_tile_box "/data/jobs/j1" true empty_world HT dead_server_down)
    as (msg & before & first & rest & _ & H & _).
  exists msg. split; [exact H|]. vm_compute. reflexivity.
Defined.






(** ** The three tools, one command each *)

Lemma run_convert_to_pbf env osm_file job_dir w :
  let cmd := ["osmium"; "sort"; osm_file; "-o"; path_join job_dir "map.osm.pbf";
              "--overwrite"] in
  convert_to_pbf env osm_file job_dir w
  = (match fst (run_command env cmd 120 (fs w)) with
     | Some proc =>
         if returncode proc =? 0 then Ok (path_join job_dir "map.osm.pbf")
         else Raise (RuntimeError ("osmium convert failed: " ++ stderr proc))
     | None => Raise (TimeoutExpired cmd 120)
     end,
     {| fs := snd (run_command env cmd 120 (fs w));
        trace := (trace w ++ [EvRun cmd 120])%list |}).
Proof.
  intros cmd. unfold convert_to_pbf. fold cmd.
  rewrite run_bind, run_subprocess.
  destruct (fst (run_command env cmd 120 (fs w))) as [proc|]; [|done].
  destruct (returncode proc =? 0); cbn [negb]; [by rewrite run_ret|by rewrite run_raise].
Qed.

Lemma run_run_splitter env cfg osm_file job_dir w :
  let splitter_dir := path_join job_dir "splitter_output" in
  let cmd := ["java"; "-Xmx4g"; "-jar"; SPLITTER_JAR cfg;
              "--output-dir=" ++ splitter_dir; osm_file] in
  let f := {| files := files (fs w); dirs := {[ splitter_dir ]} ∪ dirs (fs w) |} in
  run_splitter env cfg osm_file job_dir w
  = (match fst (run_command env cmd 300 f) with
     | Some proc =>
         if returncode proc =? 0 then Ok tt
         else Raise (RuntimeError ("Splitter failed: " ++ stderr proc))
     | None => Raise (TimeoutExpired cmd 300)
     end,
     {| fs := snd (run_command env cmd 300 f);
        trace := (trace w ++ [EvMakedirs splitter_dir; EvRun cmd 300])%list |}).
Proof.
  intros splitter_dir cmd f. unfold run_splitter. fold splitter_dir. fold cmd.
  rewrite run_bind, run_makedirs, run_bind, run_subprocess. cbn [fs trace].
  fold f. rewrite <- app_assoc. cbn [app].
  destruct (fst (run_command env cmd 300 f)) as [proc|]; [|done].
  destruct (returncode proc =? 0); cbn [negb]; [by rewrite run_ret|by rewrite run_raise].
Qed.

Lemma run_run_mkgmap env cfg job_dir w :
  let cmd := (mkgmap_options cfg job_dir ++ mkgmap_inputs env job_dir (fs w))%list in
  run_mkgmap env cfg job_dir w
  = match glob env (tiles_pattern job_dir) (fs w) with
    | [] => (Raise (FileNotFoundError "No PBF tiles found from splitter"),
             add_event w (EvGlob (tiles_pattern job_dir)))
    | _ :: _ =>
        (match fst (run_command env cmd 300 (fs w)) with
         | Some proc =>
             if returncode proc =? 0 then Ok tt
             else Raise (RuntimeError ("mkgmap failed: " ++ stderr proc))
         | None => Raise (TimeoutExpired cmd 300)
         end,
         {| fs := snd (run_command env cmd 300 (fs w));
            trace := (trace w ++ [EvGlob (tiles_pattern job_dir);
                                  EvIsFile (template_args job_dir);
                                  EvRun cmd 300])%list |})
    end.
Proof.
  intros cmd. unfold run_mkgmap.
  fold (tiles_pattern job_dir). fold (template_args job_dir).
  rewrite run_bind, run_glob.
  destruct (glob env (tiles_pattern job_dir) (fs w)) as [|pbf pbf_files] eqn:Hglob.
  { by rewrite run_raise. }
  rewrite run_bind, run_isfile, fs_add_event.
  fold (mkgmap_options cfg job_dir).
  assert (Hcmd :
    (if bool_decide (is_Some (files (fs w) !! template_args job_dir))
     then mkgmap_options cfg job_dir ++ ["-c"; template_args job_dir]
     else mkgmap_options cfg job_dir ++ pbf :: pbf_files)%list = cmd).
  { unfold cmd, mkgmap_inputs. rewrite Hglob.
    by destruct (bool_decide (is_Some (files (fs w) !! template_args job_dir))). }
  rewrite Hcmd. rewrite run_bind, run_subprocess.
  rewrite !fs_add_event, !trace_add_event, <- !app_assoc. cbn [app].
  destruct (fst (run_command env cmd 300 (fs w))) as [proc|]; [|done].
  destruct (returncode proc =? 0); cbn [negb]; [by rewrite run_ret|by rewrite run_raise].
Qed.

(** X18. [run_mkgmap] first lists the tiles of the splitter. With none
    it raises [FileNotFoundError] at once: it does not look for
    [template.args] and runs no command. Otherwise it asks whether
    [template.args] exists and runs mkgmap once, for at most 300
    seconds: with the thirteen fixed options followed by [-c] and the
    template when the template exists, in which case no tile is named
    on the command line, and followed by the tiles in the order [glob]
    gave them when it does not. It returns exactly when that command
    ends with exit code 0, and the files are then as mkgmap left
    them. *)
Theorem run_mkgmap_spec (env : Env) (cfg : Config) (job_dir : string) (w : World) :
  let tiles := glob env (tiles_pattern job_dir) (fs w) in
  let out := run_mkgmap env cfg job_dir w in
  (tiles = [] ->
   out = (Raise (FileNotFoundError "No PBF tiles found from splitter"),
          add_event w (EvGlob (tiles_pattern job_dir))))
  /\ (tiles <> [] ->
      exists inputs,
        let cmd := (mkgmap_options cfg job_dir ++ inputs)%list in
        trace (snd out)
        = (trace w ++ [EvGlob (tiles_pattern job_dir);
                       EvIsFile (template_args job_dir);
                       EvRun cmd 300])%list
        /\ (is_Some (files (fs w) !! template_args job_dir) ->
            inputs = ["-c"; template_args job_dir])
        /\ (files (fs w) !! template_args job_dir = None -> inputs = tiles)
        /\ (fst out = Ok tt <-> exit_code env cmd 300 (fs w) = Some 0)
        /\ fs (snd out) = snd (run_command env cmd 300 (fs w))).
Proof.
  intros tiles out. subst out. rewrite run_run_mkgmap. fold tiles.
  split.
  - intros ->. done.
  - intros Hne. destruct tiles as [|t ts] eqn:Ht; [done|].
    exists (mkgmap_inputs env job_dir (fs w)). cbn zeta. cbn [fst snd fs trace].
    split; [done|]. split; [|split; [|split; [|done]]].
    + intros Hsome. unfold mkgmap_inputs. by rewrite bool_decide_eq_true_2.
    + intros Hnone. unfold mkgmap_inputs.
      rewrite bool_decide_eq_false_2; [done|].
      rewrite Hnone. by intros [? ?].
    + unfold exit_code.
      destruct (fst (run_command env _ 300 (fs w))) as [proc|]; cbn [option_map].
      * destruct (returncode proc =? 0) eqn:E.
        -- apply Z.eqb_eq in E. rewrite E. done.
        -- apply Z.eqb_neq in E. split; [done|]. intros [= ?]. done.
      * done.
Qed.

(** ** A successful run, event by event *)

(** X19. A run of [generate_map] that returns has done exactly this,
    in this order: created the job directory, downloaded (reporting
    nothing but the download), then run three commands, each once and
    each on the output of the one before: [osmium sort] from [map.osm]
    to [map.osm.pbf], the splitter on [map.osm.pbf] into
    [splitter_output], and mkgmap on [template.args] or else on the
    tiles found there; and last checked that [gmapsupp.img] is in the
    job directory, which it then is. Each progress report comes right
    before its step, and the value returned is the file name
    [gmapsupp.img]. *)
Theorem generate_map_success_trace (env : Env) (cfg : Config) (job : string)
    (bbox : BBox) (w w' : World) (filename : string) :
  generate_map env cfg job bbox w = (Ok filename, w') ->
  let job_dir := job_dir_of cfg job in
  exists downloads inputs,
    filename = "gmapsupp.img"
    /\ is_Some (files (fs w') !! artifact_path cfg job)
    /\ Forall downloading_only downloads
    /\ (inputs = ["-c"; template_args job_dir]
        \/ exists f, inputs = glob env (tiles_pattern job_dir) f /\ inputs <> [])
    /\ trace w'
       = (trace w
            ++ [EvMakedirs job_dir; EvUpdateState "PROGRESS" MSG_DOWNLOADING]
            ++ downloads
            ++ [EvUpdateState "PROGRESS" MSG_CONVERTING;
                EvRun (sort_command job_dir) 120;
                EvUpdateState "PROGRESS" MSG_SPLITTING;
                EvMakedirs (path_join job_dir "splitter_output");
                EvRun (splitter_command cfg job_dir) 300;
                EvUpdateState "PROGRESS" MSG_COMPILING;
                EvGlob (tiles_pattern job_dir);
                EvIsFile (template_args job_dir);
                EvRun (mkgmap_options cfg job_dir ++ inputs) 300;
                EvIsFile (artifact_path cfg job)])%list.
Proof.
  intros H job_dir. unfold generate_map in H.
  fold (job_dir_of cfg job) in H. fold (artifact_path cfg job) in H.
  fold job_dir in H.
  rewrite run_bind, run_makedirs, try_except_reraise in H.
  set (w0 := {| fs := _; trace := (trace w ++ [EvMakedirs job_dir])%list |}) in H.
  rewrite run_bind, run_update_state in H.
  set (w1 := add_event w0 _) in H.
  apply bind_ok_inv in H as (osm_file & w2 & Hdl & H).
  destruct (download_osm_data_downloading env cfg bbox job_dir w1) as (t1 & Ht1 & HP1).
  rewrite Hdl in Ht1. cbn [snd] in Ht1.
  apply download_osm_data_ok_path in Hdl as ->.
  rewrite run_bind, run_update_state in H.
  set (w3 := add_event w2 _) in H.
  apply bind_ok_inv in H as (pbf_file & w4 & Hconv & H).
  rewrite run_convert_to_pbf in Hconv. cbv zeta in Hconv.
  fold (sort_command job_dir) in Hconv.
  assert (pbf_file = path_join job_dir "map.osm.pbf"
          /\ trace w4 = (trace w3 ++ [EvRun (sort_command job_dir) 120])%list)
    as [-> Ht4].
  { destruct (fst (run_command env (sort_command job_dir) 120 (fs w3))) as [proc|];
      [|done].
    destruct (returncode proc =? 0); [|done].
    injection Hconv as <- <-. done. }
  clear Hconv.
  rewrite run_bind, run_update_state in H.
  set (w5 := add_event w4 _) in H.
  apply bind_ok_inv in H as ([] & w6 & Hsplit & H).
  rewrite run_run_splitter in Hsplit. cbv zeta in Hsplit.
  fold (splitter_command cfg job_dir) in Hsplit.
  assert (trace w6
          = (trace w5 ++ [EvMakedirs (path_join job_dir "splitter_output");
                          EvRun (splitter_command cfg job_dir) 300])%list) as Ht6.
  { destruct (fst (run_command env (splitter_command cfg job_dir) 300 _)) as [proc|];
      [|done].
    destruct (returncode proc =? 0); [|done].
    injection Hsplit as <-. done. }
  clear Hsplit.
  rewrite run_bind, run_update_state in H.
  set (w7 := add_event w6 _) in H.
  apply bind_ok_inv in H as ([] & w8 & Hcomp & H).
  rewrite run_run_mkgmap in Hcomp. cbv zeta in Hcomp.
  assert (trace w8
          = (trace w7 ++ [EvGlob (tiles_pattern job_dir);
                          EvIsFile (template_args job_dir);
                          EvRun (mkgmap_options cfg job_dir
                                   ++ mkgmap_inputs env job_dir (fs w7)) 300])%list
          /\ (mkgmap_inputs env job_dir (fs w7) = ["-c"; template_args job_dir]
              \/ exists f, mkgmap_inputs env job_dir (fs w7)
                           = glob env (tiles_pattern job_dir) f
                           /\ mkgmap_inputs env job_dir (fs w7) <> []))
    as [Ht8 Hinputs].
  { unfold mkgmap_inputs in *.
    destruct (glob env (tiles_pattern job_dir) (fs w7)) as [|t ts] eqn:Hglob; [done|].
    split.
    - destruct (fst (run_command env _ 300 (fs w7))) as [proc|]; [|done].
      destruct (returncode proc =? 0); [|done].
      injection Hcomp as <-. done.
    - destruct (bool_decide _); [by left|].
      right. exists (fs w7). by rewrite Hglob. }
  clear Hcomp.
  rewrite run_bind, run_isfile in H.
  destruct (bool_decide (is_Some (files (fs w8) !! artifact_path cfg job)))
    eqn:Hpresent; cbn [negb] in H.
  2:{ by rewrite run_raise in H. }
  rewrite run_ret in H. injection H as <- <-.
  exists t1, (mkgmap_inputs env job_dir (fs w7)).
  split; [done|]. split.
  { rewrite fs_add_event. by apply bool_decide_eq_true_1 in Hpresent. }
  split; [done|]. split; [exact Hinputs|].
  rewrite trace_add_event, Ht8. unfold w7. rewrite trace_add_event, Ht6.
  unfold w5. rewrite trace_add_event, Ht4. unfold w3.
  rewrite trace_add_event, Ht1. unfold w1. rewrite trace_add_event.
  unfold w0. cbn [trace]. rewrite <- !app_assoc. done.
Qed.

Lemma generate_map_success_trace_witness :
  exists w',
    generate_map (scripted_env (fun _ => false)) default_config "j1" small_box
      empty_world
    = (Ok "gmapsupp.img", w')
    /\ exists downloads inputs,
         trace w'
         = (trace empty_world
              ++ [EvMakedirs "/data/jobs/j1";
                  EvUpdateState "PROGRESS" MSG_DOWNLOADING]
              ++ downloads
              ++ [EvUpdateState "PROGRESS" MSG_CONVERTING;
                  EvRun (sort_command "/data/jobs/j1") 120;
                  EvUpdateState "PROGRESS" MSG_SPLITTING;
                  EvMakedirs (path_join "/data/jobs/j1" "splitter_output");
                  EvRun (splitter_command default_config "/data/jobs/j1") 300;
                  EvUpdateState "PROGRESS" MSG_COMPILING;
                  EvGlob (tiles_pattern "/data/jobs/j1");
                  EvIsFile (template_args "/data/jobs/j1");
                  EvRun (mkgmap_options default_config "/data/jobs/j1"
                           ++ inputs) 300;
                  EvIsFile (artifact_path default_config "j1")])%list.
Proof.
  eexists. split; [vm_compute; reflexivity|].
  destruct (generate_map_success_trace (scripted_env (fun _ => false))
              default_config "j1" small_box empty_world _ _
              ltac:(vm_compute; reflexivity))
    as (downloads & inputs & _ & _ & _ & _ & H).
  exists downloads, inputs. exact H.
Defined.

(** ** From the task to the status route *)

Lemma generate_map_ok_artifact env cfg job bbox w filename w' :
  generate_map env cfg job bbox w = (Ok filename, w') ->
  filename = "gmapsupp.img"
  /\ is_Some (files (fs w') !! artifact_path cfg job).
Proof.
  unfold generate_map. fold (job_dir_of cfg job). fold (artifact_path cfg job).
  rewrite run_bind, run_makedirs, try_except_reraise. intros H.
  do 8 (apply bind_ok_inv in H as (? & ? & _ & H)).
  rewrite run_bind, run_isfile in H.
  destruct (bool_decide (is_Some (files (fs _) !! artifact_path cfg job)))
    eqn:Hpresent; cbn [negb] in H.
  2:{ by rewrite run_raise in H. }
  rewrite run_ret in H. injection H as <- <-.
  split; [done|]. rewrite fs_add_event. by apply bool_decide_eq_true_1 in Hpresent.
Qed.

(** X20. A run that ended in SUCCESS is then reported as such: as long
    as the files are those the run left behind, [get_status] for that
    job, on a task in state SUCCESS, answers "completed" with the very
    file name the task returned and with a size, never without one:
    the length of the artifact that the run checked for. *)
Theorem status_after_success (env : Env) (cfg : Config) (job : string)
    (bbox : BBox) (w w' : World) (filename : string)
    (result : AsyncResult) (later : World) :
  run_task env cfg job bbox w = (SUCCESS filename, w') ->
  fs later = fs w' ->
  state result = "SUCCESS" ->
  exists content,
    files (fs w') !! artifact_path cfg job = Some content
    /\ fst (get_status cfg job result later)
       = Ok (mkJobStatus job "completed" None None (Some filename)
               (Some (Z.of_nat (length content)))).
Proof.
  unfold run_task. intros Hrun Hfs Hstate.
  destruct (generate_map env cfg job bbox w) as [[f|e] w''] eqn:Hgen; [|done].
  injection Hrun as -> ->.
  apply generate_map_ok_artifact in Hgen as (-> & [content Hc]).
  exists content. split; [exact Hc|].
  unfold get_status. rewrite Hstate.
  change (String.eqb "SUCCESS" "PENDING") with false.
  change (String.eqb "SUCCESS" "PROGRESS") with false.
  change (String.eqb "SUCCESS" "SUCCESS") with true. cbv iota.
  fold (job_dir_of cfg job). fold (artifact_path cfg job).
  rewrite run_bind, run_isfile, Hfs, Hc.
  rewrite bool_decide_eq_true_2 by eauto.
  rewrite !run_bind, run_getsize, fs_add_event, Hfs, Hc, !run_ret. done.
Qed.

Lemma status_after_success_witness :
  exists w' content,
    run_task (scripted_env (fun _ => false)) default_config "j1" small_box
      empty_world
    = (SUCCESS "gmapsupp.img", w')
    /\ files (fs w') !! artifact_path default_config "j1" = Some content
    /\ fst (get_status default_config "j1" (mkAsyncResult "SUCCESS" ∅ "") w')
       = Ok (mkJobStatus "j1" "completed" None None (Some "gmapsupp.img")
               (Some (Z.of_nat (length content)))).
Proof.
  eexists.
  destruct (status_after_success (scripted_env (fun _ => false)) default_config
              "j1" small_box empty_world _ "gmapsupp.img"
              (mkAsyncResult "SUCCESS" ∅ "") _
              ltac:(vm_compute; reflexivity) eq_refl eq_refl)
    as (content & H1 & H2).
  exists content. split; [vm_compute; reflexivity|]. split; [exact H1|exact H2].
Defined.
